(** * pika.compat: a shallow embedding of [src/pika/compat.py]

    The module is embedded function by function.  Python exceptions become an
    explicit result type; the socket calls of [nonblocking_socketpair] run in
    a state-and-exception monad over a scripted model of the host socket
    layer, which records every call that is issued and lets any call fail. *)

From Stdlib Require Import ZArith NArith String Lia.
From Stdlib Require Import Strings.Byte.
From stdpp Require Import base list.

Local Open Scope Z_scope.

(** ** Python exceptions and results *)

(** The exception classes that the embedded functions can meet.  All of them
    derive from [Exception] except [KeyboardInterrupt], which derives from
    [BaseException] only. *)
Inductive exc : Type :=
  | ValueError (msg : string)
  | OSError (errno : Z)
  | UnicodeEncodeError
  | AttributeError
  | IndexError
  | KeyboardInterrupt.

(** [isinstance(e, Exception)] *)
Definition is_Exception (e : exc) : bool :=
  match e with
  | KeyboardInterrupt => false
  | _ => true
  end.

(** A raised exception object: its class and payload, and its [__context__],
    the exception that was being handled when it was raised. *)
#[warnings="-register-all"]
Inductive exn : Type :=
  | Exn (e : exc) (context : option exn).

Definition exn_exc (x : exn) : exc := match x with Exn e _ => e end.
Definition exn_context (x : exn) : option exn := match x with Exn _ c => c end.

(** Raising [x] while [handled] is being handled sets [x.__context__]. *)
Definition set_context (handled : exn) (x : exn) : exn :=
  Exn (exn_exc x) (Some handled).

Inductive result (A : Type) : Type :=
  | Ok (a : A)
  | Raise (x : exn).
Arguments Ok {A} a.
Arguments Raise {A} x.

Definition result_bind {A B} (r : result A) (f : A -> result B) : result B :=
  match r with
  | Ok a => f a
  | Raise x => Raise x
  end.

(** ** The host socket layer *)

(** Values of the [socket] module that the source reads.  They differ between
    platforms, so they are taken as parameters. *)
Record platform : Type := Platform {
  AF_INET : Z;
  AF_INET6 : Z;
  SOCK_STREAM : Z;
  SOMAXCONN : Z
}.

Definition linux : platform :=
  {| AF_INET := 2; AF_INET6 := 10; SOCK_STREAM := 1; SOMAXCONN := 4096 |}.

Definition address : Type := string * Z.

(** A socket object.  A Python socket keeps its identity after [close()], so
    a closed socket stays in the table with [s_open = false]. *)
Record sock : Type := Sock {
  s_family : Z;
  s_type : Z;
  s_proto : Z;
  s_open : bool;
  s_blocking : bool;
  s_bound : option address;
  s_backlog : option Z;
  s_peer : option nat
}.

(** The calls into the socket layer; sockets are named by their index in the
    socket table. *)
Inductive syscall : Type :=
  | SysSocket (family type proto : Z)
  | SysBind (fd : nat) (a : address)
  | SysListen (fd : nat) (backlog : Z)
  | SysGetsockname (fd : nat)
  | SysConnect (fd : nat) (a : address)
  | SysAccept (fd : nat)
  | SysClose (fd : nat)
  | SysSetblocking (fd : nat) (flag : bool).

(** One issued call with its outcome: [None] when it returned, [Some e] when
    it raised [e]. *)
Record event : Type := Ev { ev_call : syscall; ev_err : option exc }.

(** The state of the host: the socket table, the log of the calls issued so
    far (oldest first), the script of injected faults (one entry is consumed
    by each call; [Some e] makes that call raise [e], an exhausted script
    injects nothing), the next ephemeral port, and the client whose
    connection waits to be accepted. *)
Record world : Type := World {
  w_socks : list sock;
  w_trace : list event;
  w_script : list (option exc);
  w_port : Z;
  w_pending : option nat
}.

Definition EBADF : Z := 9.
Definition EAGAIN : Z := 11.
Definition EINVAL : Z := 22.

(** State-and-exception monad: the world survives a raised exception. *)
Definition M (A : Type) : Type := world -> result A * world.

Definition ret {A} (a : A) : M A := fun w => (Ok a, w).
Definition raise {A} (x : exn) : M A := fun w => (Raise x, w).
Definition bind {A B} (m : M A) (f : A -> M B) : M B :=
  fun w =>
    match m w with
    | (Ok a, w1) => f a w1
    | (Raise x, w1) => (Raise x, w1)
    end.

Notation "x <- m ;; k" := (bind m (fun x => k))
  (at level 100, m at next level, right associativity).
Notation "m ;;; k" := (bind m (fun _ => k))
  (at level 100, right associativity).

(** [m] runs while [handled] is being handled: what [m] raises gets
    [handled] as its context. *)
Definition while_handling {A} (handled : exn) (m : M A) : M A :=
  fun w =>
    match m w with
    | (Ok a, w1) => (Ok a, w1)
    | (Raise x, w1) => (Raise (set_context handled x), w1)
    end.

(** [try: body / except Exception: handler; raise] *)
Definition try_except_Exception_reraise {A} (body : M A) (handler : M unit)
  : M A :=
  fun w =>
    match body w with
    | (Ok a, w1) => (Ok a, w1)
    | (Raise x, w1) =>
        if is_Exception (exn_exc x)
        then (while_handling x handler ;;; raise x) w1
        else (Raise x, w1)
    end.

(** [try: body / finally: final] *)
Definition try_finally {A} (body : M A) (final : M unit) : M A :=
  fun w =>
    match body w with
    | (Ok a, w1) => (final ;;; ret a) w1
    | (Raise x, w1) => (while_handling x final ;;; raise x) w1
    end.

Definition pop_fault (w : world) : option exc * world :=
  (hd None (w_script w),
   World (w_socks w) (w_trace w) (tl (w_script w)) (w_port w) (w_pending w)).

Definition log (c : syscall) (r : option exc) (w : world) : world :=
  World (w_socks w) (w_trace w ++ [Ev c r]) (w_script w) (w_port w)
        (w_pending w).

Definition err_of {A} (r : result A) : option exc :=
  match r with
  | Ok _ => None
  | Raise x => Some (exn_exc x)
  end.

(** A call [c]: an injected fault makes it raise without any effect, else
    [body] runs; either way the call and its outcome are logged. *)
Definition sys {A} (c : syscall) (body : M A) : M A :=
  fun w =>
    let (f, w1) := pop_fault w in
    match f with
    | Some e => (Raise (Exn e None), log c (Some e) w1)
    | None => let (r, w2) := body w1 in (r, log c (err_of r) w2)
    end.

Definition set_socks (socks : list sock) (w : world) : world :=
  World socks (w_trace w) (w_script w) (w_port w) (w_pending w).

Definition alter_sock (f : sock -> sock) (fd : nat) (w : world) : world :=
  set_socks (alter f fd (w_socks w)) w.

(** A method of an open socket; a closed or unknown socket gives [EBADF]. *)
Definition on_sock {A} (fd : nat) (k : sock -> M A) : M A :=
  fun w =>
    match w_socks w !! fd with
    | Some s =>
        if s_open s then k s w else (Raise (Exn (OSError EBADF) None), w)
    | None => (Raise (Exn (OSError EBADF) None), w)
    end.

(** [socket.socket(family, type, proto)]: a new open, blocking, unbound
    socket. *)
Definition socket_socket (family type proto : Z) : M nat :=
  sys (SysSocket family type proto)
    (fun w =>
       (Ok (length (w_socks w)),
        set_socks (w_socks w ++
                   [Sock family type proto true true None None None]) w)).

(** The port given to a socket that asks for [port]: port 0 asks the host
    for an ephemeral one. *)
Definition assign_port (port : Z) (w : world) : Z * world :=
  if port =? 0
  then (w_port w,
        World (w_socks w) (w_trace w) (w_script w) (w_port w + 1)
              (w_pending w))
  else (port, w).

Definition with_bound (a : address) (s : sock) : sock :=
  Sock (s_family s) (s_type s) (s_proto s) (s_open s) (s_blocking s)
       (Some a) (s_backlog s) (s_peer s).

Definition with_backlog (n : Z) (s : sock) : sock :=
  Sock (s_family s) (s_type s) (s_proto s) (s_open s) (s_blocking s)
       (s_bound s) (Some n) (s_peer s).

Definition with_peer (p : nat) (s : sock) : sock :=
  Sock (s_family s) (s_type s) (s_proto s) (s_open s) (s_blocking s)
       (s_bound s) (s_backlog s) (Some p).

Definition with_blocking (b : bool) (s : sock) : sock :=
  Sock (s_family s) (s_type s) (s_proto s) (s_open s) b
       (s_bound s) (s_backlog s) (s_peer s).

Definition closed (s : sock) : sock :=
  Sock (s_family s) (s_type s) (s_proto s) false (s_blocking s)
       (s_bound s) (s_backlog s) (s_peer s).

(** [sock.bind((host, port))] *)
Definition sock_bind (fd : nat) (a : address) : M unit :=
  sys (SysBind fd a)
    (on_sock fd (fun _ w =>
       let (p, w1) := assign_port (snd a) w in
       (Ok tt, alter_sock (with_bound (fst a, p)) fd w1))).

(** [sock.listen(backlog)] *)
Definition sock_listen (fd : nat) (backlog : Z) : M unit :=
  sys (SysListen fd backlog)
    (on_sock fd (fun _ w => (Ok tt, alter_sock (with_backlog backlog) fd w))).

(** [sock.getsockname()]: the bound address as a tuple, [(host, port)] for
    IPv4 and [(host, port, flowinfo, scope_id)] for IPv6; an unbound socket
    reports the wildcard address. *)
Definition sock_getsockname (P : platform) (fd : nat)
  : M (string * Z * list Z) :=
  sys (SysGetsockname fd)
    (on_sock fd (fun s w =>
       let v6 := s_family s =? AF_INET6 P in
       let a := match s_bound s with
                | Some a => a
                | None => ((if v6 then "::" else "0.0.0.0")%string, 0)
                end in
       (Ok (fst a, snd a, if v6 then [0; 0] else []), w))).

(** [sock.connect((host, port))]: an unbound client gets an ephemeral local
    port and its connection waits to be accepted. *)
Definition sock_connect (fd : nat) (a : address) : M unit :=
  sys (SysConnect fd a)
    (on_sock fd (fun s w =>
       let w1 := match s_bound s with
                 | Some _ => w
                 | None =>
                     let (p, w0) := assign_port 0 w in
                     alter_sock (with_bound (fst a, p)) fd w0
                 end in
       (Ok tt,
        World (w_socks w1) (w_trace w1) (w_script w1) (w_port w1)
              (Some fd)))).

(** [sock.accept()]: a new open, blocking socket connected to the waiting
    client, and the client's address.  Where a blocking listener would wait
    for a connection, the model reports [EAGAIN]. *)
Definition sock_accept (fd : nat) : M (nat * option address) :=
  sys (SysAccept fd)
    (on_sock fd (fun s w =>
       match s_backlog s with
       | None => (Raise (Exn (OSError EINVAL) None), w)
       | Some _ =>
           match w_pending w with
           | None => (Raise (Exn (OSError EAGAIN) None), w)
           | Some c =>
               let conn := length (w_socks w) in
               let new := Sock (s_family s) (s_type s) (s_proto s) true true
                               (s_bound s) None (Some c) in
               let socks := alter (with_peer conn) c (w_socks w ++ [new]) in
               (Ok (conn, (w_socks w !! c) ≫= s_bound),
                World socks (w_trace w) (w_script w) (w_port w) None)
           end
       end)).

(** [sock.close()]: releases the socket, also when the host then reports an
    error; closing a closed socket does nothing. *)
Definition sock_close (fd : nat) : M unit :=
  fun w =>
    let (f, w1) := pop_fault w in
    let w2 := alter_sock closed fd w1 in
    match f with
    | Some e => (Raise (Exn e None), log (SysClose fd) (Some e) w2)
    | None => (Ok tt, log (SysClose fd) None w2)
    end.

(** [sock.setblocking(flag)] *)
Definition sock_setblocking (fd : nat) (flag : bool) : M unit :=
  sys (SysSetblocking fd flag)
    (on_sock fd (fun _ w => (Ok tt, alter_sock (with_blocking flag) fd w))).

(** ** [nonblocking_socketpair] *)

Definition _LOCALHOST : string := "127.0.0.1".
Definition _LOCALHOST_V6 : string := "::1".

Definition msg_family : string :=
  "Only AF_INET and AF_INET6 socket address families are supported".
Definition msg_socket_type : string :=
  "Only SOCK_STREAM socket socket_type is supported".
Definition msg_proto : string := "Only protocol zero is supported".

(** [getsockname()[:2]] unpacked into [addr, port] *)
Definition slice2 (name : string * Z * list Z) : address := fst name.

Definition nonblocking_socketpair (P : platform)
    (family socket_type proto : Z) : M (nat * nat) :=
  host <- (if family =? AF_INET P then ret _LOCALHOST
           else if family =? AF_INET6 P then ret _LOCALHOST_V6
           else raise (Exn (ValueError msg_family) None)) ;;
  (if negb (socket_type =? SOCK_STREAM P)
   then raise (Exn (ValueError msg_socket_type) None) else ret tt) ;;;
  (if negb (proto =? 0)
   then raise (Exn (ValueError msg_proto) None) else ret tt) ;;;
  lsock <- socket_socket family socket_type proto ;;
  cs <- try_finally
          (sock_bind lsock (host, 0) ;;;
           sock_listen lsock (Z.min (SOMAXCONN P) 128) ;;;
           name <- sock_getsockname P lsock ;;
           let (addr, port) := slice2 name in
           csock <- socket_socket family socket_type proto ;;
           ssock <- try_except_Exception_reraise
                      (sock_connect csock (addr, port) ;;;
                       conn <- sock_accept lsock ;;
                       ret (fst conn))
                      (sock_close csock) ;;
           ret (csock, ssock))
          (sock_close lsock) ;;
  sock_setblocking (fst cs) false ;;;
  sock_setblocking (snd cs) false ;;;
  ret (snd cs, fst cs).

(** The pristine host: no sockets, nothing logged, no injected faults. *)
Definition fresh_world (script : list (option exc)) : world :=
  World [] [] script 49152 None.


(** ** Python strings, bytes and the Unicode database *)

(** A [str] is a sequence of code points (0 to 0x10FFFF), a [bytes] a
    sequence of bytes. *)
Definition str : Type := list N.
Definition bytes : Type := list byte.

Inductive pyobj : Type :=
  | PyStr (s : str)
  | PyBytes (b : bytes)
  | PyInt (n : Z).

Local Open Scope N_scope.

(** Runs [(first, length)] of the code points of category Nd, the decimal
    digits; inside a run the values 0 to 9 repeat in order (Unicode 14.0, the
    database of CPython 3.11). *)
Definition decimal_runs : list (N * N) :=
  [(0x30, 10); (0x660, 10); (0x6F0, 10); (0x7C0, 10);
   (0x966, 10); (0x9E6, 10); (0xA66, 10); (0xAE6, 10);
   (0xB66, 10); (0xBE6, 10); (0xC66, 10); (0xCE6, 10);
   (0xD66, 10); (0xDE6, 10); (0xE50, 10); (0xED0, 10);
   (0xF20, 10); (0x1040, 10); (0x1090, 10); (0x17E0, 10);
   (0x1810, 10); (0x1946, 10); (0x19D0, 10); (0x1A80, 10);
   (0x1A90, 10); (0x1B50, 10); (0x1BB0, 10); (0x1C40, 10);
   (0x1C50, 10); (0xA620, 10); (0xA8D0, 10); (0xA900, 10);
   (0xA9D0, 10); (0xA9F0, 10); (0xAA50, 10); (0xABF0, 10);
   (0xFF10, 10); (0x104A0, 10); (0x10D30, 10); (0x11066, 10);
   (0x110F0, 10); (0x11136, 10); (0x111D0, 10); (0x112F0, 10);
   (0x11450, 10); (0x114D0, 10); (0x11650, 10); (0x116C0, 10);
   (0x11730, 10); (0x118E0, 10); (0x11950, 10); (0x11C50, 10);
   (0x11D50, 10); (0x11DA0, 10); (0x16A60, 10); (0x16AC0, 10);
   (0x16B50, 10); (0x1D7CE, 50); (0x1E140, 10); (0x1E2F0, 10);
   (0x1E950, 10); (0x1FBF0, 10)].

(** Runs of the code points that are digits without being decimal digits
    (superscripts, subscripts, circled digits and the like). *)
Definition other_digit_runs : list (N * N) :=
  [(0xB2, 2); (0xB9, 1); (0x1369, 9); (0x19DA, 1);
   (0x2070, 1); (0x2074, 6); (0x2080, 10); (0x2460, 9);
   (0x2474, 9); (0x2488, 9); (0x24EA, 1); (0x24F5, 9);
   (0x24FF, 1); (0x2776, 9); (0x2780, 9); (0x278A, 9);
   (0x10A40, 4); (0x10E60, 9); (0x11052, 9); (0x1F100, 11)].

(** Runs of the whitespace code points. *)
Definition space_runs : list (N * N) :=
  [(0x9, 5); (0x1C, 5); (0x85, 1); (0xA0, 1);
   (0x1680, 1); (0x2000, 11); (0x2028, 2); (0x202F, 1);
   (0x205F, 1); (0x3000, 1)].

Definition in_run (c : N) (r : N * N) : bool :=
  (fst r <=? c) && (c <? fst r + snd r).

Fixpoint find_run (c : N) (runs : list (N * N)) : option (N * N) :=
  match runs with
  | [] => None
  | r :: runs' => if in_run c r then Some r else find_run c runs'
  end.

(** The decimal value of a code point, if it is a decimal digit. *)
Definition to_decimal (c : N) : option N :=
  match find_run c decimal_runs with
  | Some r => Some ((c - fst r) mod 10)
  | None => None
  end.

Definition is_decimal (c : N) : bool :=
  match to_decimal c with Some _ => true | None => false end.

Definition is_digit (c : N) : bool :=
  is_decimal c ||
  match find_run c other_digit_runs with Some _ => true | None => false end.

Definition is_space (c : N) : bool :=
  match find_run c space_runs with Some _ => true | None => false end.

(** [str.isdigit()]: at least one character and all of them digits. *)
Definition str_isdigit (s : str) : bool :=
  match s with
  | [] => false
  | _ => forallb is_digit s
  end.

(** ** [as_bytes] *)

Definition byte_of (n : N) : byte :=
  match Byte.of_N n with
  | Some b => b
  | None => "000"%byte
  end.

(** The UTF-8 bytes of one code point; a surrogate has none. *)
Definition utf8_char (c : N) : option bytes :=
  if c <? 0x80 then Some [byte_of c]
  else if c <? 0x800 then
    Some [byte_of (N.lor 0xC0 (N.shiftr c 6));
          byte_of (N.lor 0x80 (N.land c 0x3F))]
  else if c <? 0x10000 then
    if (0xD800 <=? c) && (c <=? 0xDFFF) then None
    else
      Some [byte_of (N.lor 0xE0 (N.shiftr c 12));
            byte_of (N.lor 0x80 (N.land (N.shiftr c 6) 0x3F));
            byte_of (N.lor 0x80 (N.land c 0x3F))]
  else
    Some [byte_of (N.lor 0xF0 (N.shiftr c 18));
          byte_of (N.lor 0x80 (N.land (N.shiftr c 12) 0x3F));
          byte_of (N.lor 0x80 (N.land (N.shiftr c 6) 0x3F));
          byte_of (N.lor 0x80 (N.land c 0x3F))].

(** [s.encode('UTF-8')] with the default strict error handler. *)
Fixpoint str_encode_utf8 (s : str) : result bytes :=
  match s with
  | [] => Ok []
  | c :: s' =>
      match utf8_char c with
      | None => Raise (Exn UnicodeEncodeError None)
      | Some bs =>
          match str_encode_utf8 s' with
          | Ok rest => Ok (bs ++ rest)
          | Raise x => Raise x
          end
      end
  end.

Definition as_bytes (value : pyobj) : result pyobj :=
  match value with
  | PyBytes _ => Ok value
  | PyStr s =>
      match str_encode_utf8 s with
      | Ok b => Ok (PyBytes b)
      | Raise x => Raise x
      end
  | PyInt _ => Raise (Exn AttributeError None)
  end.

(** ** [to_digit] *)

(** The regular expressions that [RE_NUM] is built from. *)
Inductive charset : Type :=
  | Digit    (* \d *)
  | AnyChar. (* .  *)

Inductive regex : Type :=
  | Plus (c : charset)       (* c+, greedy *)
  | Group (r : regex)        (* (r) *)
  | Seq (r1 r2 : regex).     (* r1r2 *)

(** [\d] matches the decimal digits, [.] everything but a newline. *)
Definition charset_mem (cs : charset) (c : N) : bool :=
  match cs with
  | Digit => is_decimal c
  | AnyChar => negb (c =? 0x0A)
  end.

(** The backtracking matcher.  [k] is what remains to be matched after this
    piece, given the unread input; the first success in the order of the
    attempts wins, and a greedy [+] attempts the longest repetition first. *)
Fixpoint plus_greedy {R} (p : N -> bool) (s : str) (k : str -> option R)
  : option R :=
  match s with
  | [] => None
  | c :: s' =>
      if p c then
        match plus_greedy p s' k with
        | Some r => Some r
        | None => k s'
        end
      else None
  end.

Fixpoint rmatch {R} (r : regex) (s : str) (groups : list str)
    (k : str -> list str -> option R) : option R :=
  match r with
  | Plus cs => plus_greedy (charset_mem cs) s (fun rest => k rest groups)
  | Group r1 =>
      rmatch r1 s groups
        (fun rest gs =>
           k rest (gs ++ [take (length s - length rest)%nat s]))
  | Seq r1 r2 => rmatch r1 s groups (fun rest gs => rmatch r2 rest gs k)
  end.

(** [pattern.match(s)]: a match anchored at the start of [s]; the result is
    [match.groups()]. *)
Definition re_match (r : regex) (s : str) : option (list str) :=
  rmatch r s [] (fun _ gs => Some gs).

(** [re.compile(r'(\d+).+')] *)
Definition RE_NUM : regex := Seq (Group (Plus Digit)) (Plus AnyChar).

(** [int(s)] for a [str] in base 10, after CPython: decimal digits and
    whitespace outside ASCII are first mapped to ASCII, then optional
    whitespace, an optional sign, digits with single underscores between
    them, and optional whitespace are read.  [limit] is
    [sys.get_int_max_str_digits()], 0 for no limit. *)
Definition int_to_ascii (c : N) : N :=
  if c <? 127 then c
  else if is_space c then 0x20
  else match to_decimal c with
       | Some d => 0x30 + d
       | None => 0x3F
       end.

Definition c_isspace (c : N) : bool :=
  (c =? 0x20) || ((0x09 <=? c) && (c <=? 0x0D)).

Fixpoint skip_space (s : str) : str :=
  match s with
  | [] => []
  | c :: s' => if c_isspace c then skip_space s' else s
  end.

Definition is_ascii_digit (c : N) : bool := (0x30 <=? c) && (c <=? 0x39).

(** The digits of the literal: the value read so far, the number of digits
    and the unread input, or [None] for a misplaced underscore. *)
Fixpoint scan_digits (s : str) (prev_underscore : bool) (acc : Z) (n : nat)
  : option (Z * nat * str) :=
  match s with
  | [] => if prev_underscore then None else Some (acc, n, [])
  | c :: s' =>
      if c =? 0x5F then
        if prev_underscore then None else scan_digits s' true acc n
      else if is_ascii_digit c then
        scan_digits s' false (10 * acc + Z.of_N (c - 0x30))%Z (S n)
      else if prev_underscore then None else Some (acc, n, s)
  end.

Definition invalid_literal : exn :=
  Exn (ValueError "invalid literal for int() with base 10") None.
Definition exceeds_limit : exn :=
  Exn (ValueError "Exceeds the limit for integer string conversion") None.

(** An optional sign in front of the digits. *)
Definition split_sign (a : str) : bool * str :=
  match a with
  | [] => (false, [])
  | c :: a' =>
      if c =? 0x2B then (false, a')
      else if c =? 0x2D then (true, a')
      else (false, a)
  end.

Definition starts_with_underscore (a : str) : bool :=
  match a with
  | [] => false
  | c :: _ => c =? 0x5F
  end.

Definition py_int (limit : nat) (s : str) : result Z :=
  let (negative, digits) := split_sign (skip_space (map int_to_ascii s)) in
  if starts_with_underscore digits then Raise invalid_literal
  else
    match scan_digits digits false 0%Z 0%nat with
    | None => Raise invalid_literal
    | Some (v, n, rest) =>
        if Nat.eqb n 0 then Raise invalid_literal
        else if negb (Nat.eqb limit 0) && Nat.ltb limit n
        then Raise exceeds_limit
        else
          match skip_space rest with
          | [] => Ok (if negative then (- v)%Z else v)
          | _ => Raise invalid_literal
          end
    end.

Definition to_digit (limit : nat) (value : str) : result Z :=
  if str_isdigit value then py_int limit value
  else
    match re_match RE_NUM value with
    | Some groups =>
        match groups !! 0%nat with
        | Some g => py_int limit g
        | None => Raise (Exn IndexError None)
        end
    | None => Ok 0%Z
    end.

(** What the tables are checked for: a run of digits lies above 126 or
    inside 0 to 9, and it meets no run of whitespace. *)
Definition run_ok (r : N * N) : bool :=
  ((127 <=? fst r) || ((0x30 <=? fst r) && (fst r + snd r <=? 0x3A)))
  && forallb (fun sp => (fst r + snd r <=? fst sp) || (fst sp + snd sp <=? fst r))
             space_runs.

Local Close Scope N_scope.


(** ** What a run leaves behind *)

(** The calls issued between the worlds [w] and [w'], oldest first. *)
Definition issued (w w' : world) (evs : list event) : Prop :=
  w_trace w' = w_trace w ++ evs.

Definition is_open (w : world) (fd : nat) : option bool :=
  s_open <$> w_socks w !! fd.

Definition is_blocking (w : world) (fd : nat) : option bool :=
  s_blocking <$> w_socks w !! fd.

(** How often [close()] was called on the socket [fd]. *)
Fixpoint count_close (fd : nat) (evs : list event) : nat :=
  match evs with
  | [] => 0
  | Ev (SysClose fd') _ :: evs' =>
      if Nat.eqb fd' fd then S (count_close fd evs') else count_close fd evs'
  | _ :: evs' => count_close fd evs'
  end.

(** The next calls get the outcomes [outs] from the script, in this order. *)
Fixpoint outcomes (outs script : list (option exc)) : Prop :=
  match outs with
  | [] => True
  | o :: outs' => hd None script = o /\ outcomes outs' (tl script)
  end.

(** The loopback address literal of a family (IPv6: [::1], IPv4:
    [127.0.0.1]). *)
Definition loopback_literal (P : platform) (family : Z) : string :=
  if family =? AF_INET6 P then "::1" else "127.0.0.1".

(** The error that is left after a [close()] of the cleanup with outcome
    [f], when [x] was propagating. *)
Definition after_close (f : option exc) (x : exn) : exn :=
  match f with
  | Some e => Exn e (Some x)
  | None => x
  end.

Definition ECONNREFUSED : Z := 111.
Definition EIO : Z := 5.

(** ** [byte] *)

(** [bytes(args)] for a tuple of integers: every item must be in
    [range(0, 256)]. *)
Definition byte (args : list Z) : result bytes :=
  if forallb (fun n => (0 <=? n) && (n <? 256)) args
  then Ok (map (fun n => byte_of (Z.to_N n)) args)
  else Raise (Exn (ValueError "bytes must be in range(0, 256)") None).

(** [list(b)] for a [bytes] value: its items as integers. *)
Definition bytes_items (b : bytes) : list Z :=
  map (fun x => Z.of_N (Byte.to_N x)) b.

(** ** [long] *)

(** The decimal digits of [n], most significant first, in front of [acc];
    [fuel] bounds the number of digits. *)
Fixpoint decimal_digits (fuel : nat) (n : N) (acc : str) : str :=
  match fuel with
  | O => acc
  | S fuel' =>
      let acc' := (0x30 + n mod 10)%N :: acc in
      if (n / 10 =? 0)%N then acc' else decimal_digits fuel' (n / 10)%N acc'
  end.

(** [str(n)] for an [int]. *)
Definition int_str (n : Z) : str :=
  let digits := decimal_digits (S (N.to_nat (N.size (Z.to_N (Z.abs n)))))
                               (Z.to_N (Z.abs n)) [] in
  if n <? 0 then 0x2D%N :: digits else digits.

(** [long.__str__]: [str(int(self))] *)
Definition long_str (self : Z) : str := int_str self.

(** [long.__repr__]: [str(self) + 'L'] *)
Definition long_repr (self : Z) : str := long_str self ++ [0x4C%N].

(** ** Dictionary accessors *)

(** A [dict]: its items in insertion order, every key once. *)
Definition pydict (K V : Type) : Type := list (K * V).

(** [dct[key]] *)
Fixpoint dict_getitem {K V} `{EqDecision K} (dct : pydict K V) (key : K)
  : option V :=
  match dct with
  | [] => None
  | (k, v) :: dct' => if decide (k = key) then Some v
                      else dict_getitem dct' key
  end.

Definition dictkeys {K V} (dct : pydict K V) : list K := map fst dct.
Definition dictvalues {K V} (dct : pydict K V) : list V := map snd dct.
(** What iterating over the returned view gives. *)
Definition dict_iteritems {K V} (dct : pydict K V) : list (K * V) := dct.
Definition dict_itervalues {K V} (dct : pydict K V) : list V := map snd dct.

(** ** Platform flags *)

(** [sys.platform.startswith("linux")] *)
Definition ON_LINUX (sys_platform : string) : bool :=
  String.prefix "linux" sys_platform.
Definition ON_OSX (sys_platform : string) : bool :=
  String.eqb sys_platform "darwin".
Definition ON_WINDOWS (sys_platform : string) : bool :=
  String.eqb sys_platform "win32".

(** ** [get_linux_version] *)

(** [s.split(sep, maxsplit)] for a separator of one character; [None] is
    Python's default of no limit.  There is always at least one part. *)
Fixpoint str_split (sep : N) (maxsplit : option nat) (s : str) : list str :=
  match s with
  | [] => [[]]
  | c :: s' =>
      match maxsplit with
      | Some O => [s]
      | _ =>
          if (c =? sep)%N then [] :: str_split sep (pred <$> maxsplit) s'
          else
            match str_split sep maxsplit s' with
            | [] => [[c]]
            | part :: parts => (c :: part) :: parts
            end
      end
  end.

(** [map] with a function that may raise: the items are computed from left
    to right and the first exception ends the computation. *)
Fixpoint result_map {A B} (f : A -> result B) (l : list A) : result (list B) :=
  match l with
  | [] => Ok []
  | a :: l' =>
      match f a with
      | Raise x => Raise x
      | Ok b =>
          match result_map f l' with
          | Raise x => Raise x
          | Ok bs => Ok (b :: bs)
          end
      end
  end.

Definition get_linux_version (limit : nat) (release_str : str)
  : result (list Z) :=
  match str_split 0x2D%N None release_str with
  | [] => Raise (Exn IndexError None)
  | ver_str :: _ =>
      result_map (to_digit limit)
        (take 3 (str_split 0x2E%N (Some 3%nat) ver_str))
  end.

(** ** Notions for the statements about strings *)

(** The matcher of a repetition stops in front of [rest]: at the end of the
    input or at a character outside the class. *)
Definition stops (p : N -> bool) (rest : str) : Prop :=
  match rest with
  | [] => True
  | c :: _ => p c = false
  end.

(** The code points that UTF-8 does not encode. *)
Definition is_surrogate (c : N) : Prop := (0xD800 <= c <= 0xDFFF)%N.

(** * Properties *)

(** ** Argument validation *)

(** C2: a family other than AF_INET and AF_INET6 makes
    [nonblocking_socketpair] raise the [ValueError] for the family (the
    configuration error of the specification) and leaves the host untouched:
    no socket is opened and no call is issued. *)
Theorem unsupported_family_raises_before_any_socket
    (P : platform) (family socket_type proto : Z) (w : world) :
  family <> AF_INET P -> family <> AF_INET6 P ->
  nonblocking_socketpair P family socket_type proto w
  = (Raise (Exn (ValueError msg_family) None), w).
Proof.
  intros H4 H6. unfold nonblocking_socketpair, bind.
  apply Z.eqb_neq in H4, H6. by rewrite H4, H6.
Qed.

Lemma unsupported_family_witness :
  nonblocking_socketpair linux 1 1 0 (fresh_world [])
  = (Raise (Exn (ValueError msg_family) None), fresh_world []).
Proof.
  apply (unsupported_family_raises_before_any_socket linux 1 1 0); cbn; lia.
Defined.

(** C6: with a supported family, a socket type other than SOCK_STREAM or a
    protocol other than zero makes [nonblocking_socketpair] raise a
    [ValueError] and leaves the host untouched: the arguments alone decide,
    no socket is created and no bind call is issued. *)
Theorem unsupported_type_or_proto_raises_before_any_socket
    (P : platform) (family socket_type proto : Z) (w : world) :
  family = AF_INET P \/ family = AF_INET6 P ->
  socket_type <> SOCK_STREAM P \/ proto <> 0 ->
  exists msg,
    nonblocking_socketpair P family socket_type proto w
    = (Raise (Exn (ValueError msg) None), w).
Proof.
  intros Hfam Hbad. unfold nonblocking_socketpair, bind.
  destruct Hfam as [-> | ->]; rewrite ?Z.eqb_refl;
    [| destruct (AF_INET6 P =? AF_INET P)]; cbn.
  all: destruct (socket_type =? SOCK_STREAM P) eqn:Et; cbn; [| by eexists].
  all: destruct (proto =? 0) eqn:Ep; cbn; [| by eexists].
  all: apply Z.eqb_eq in Et, Ep; by destruct Hbad.
Qed.

Lemma unsupported_type_or_proto_witness :
  exists msg,
    nonblocking_socketpair linux 10 2 17 (fresh_world [])
    = (Raise (Exn (ValueError msg) None), fresh_world []).
Proof.
  apply (unsupported_type_or_proto_raises_before_any_socket linux 10 2 17);
    cbn; [right | left]; lia.
Defined.

(** C8: the arguments are checked in the order family, socket type,
    protocol, and the first failing check decides the error: an unsupported
    family is reported whatever the other arguments are, an unsupported
    socket type is reported whatever the protocol is, and the protocol is
    reported only when family and socket type are fine. *)
Theorem validation_order
    (P : platform) (family socket_type proto : Z) (w : world) :
  (family <> AF_INET P -> family <> AF_INET6 P ->
   nonblocking_socketpair P family socket_type proto w
   = (Raise (Exn (ValueError msg_family) None), w)) /\
  (family = AF_INET P \/ family = AF_INET6 P ->
   socket_type <> SOCK_STREAM P ->
   nonblocking_socketpair P family socket_type proto w
   = (Raise (Exn (ValueError msg_socket_type) None), w)) /\
  (family = AF_INET P \/ family = AF_INET6 P ->
   socket_type = SOCK_STREAM P -> proto <> 0 ->
   nonblocking_socketpair P family socket_type proto w
   = (Raise (Exn (ValueError msg_proto) None), w)).
Proof.
  unfold nonblocking_socketpair, bind. repeat split.
  - intros H4%Z.eqb_neq H6%Z.eqb_neq. by rewrite H4, H6.
  - intros Hfam Ht%Z.eqb_neq. rewrite Ht.
    destruct (family =? AF_INET P) eqn:E4; [done|].
    destruct (family =? AF_INET6 P) eqn:E6; [done|].
    destruct Hfam as [-> | ->]; by rewrite Z.eqb_refl in *.
  - intros Hfam -> Hp%Z.eqb_neq. rewrite Z.eqb_refl, Hp.
    destruct (family =? AF_INET P) eqn:E4; [done|].
    destruct (family =? AF_INET6 P) eqn:E6; [done|].
    destruct Hfam as [-> | ->]; by rewrite Z.eqb_refl in *.
Qed.

Lemma validation_order_witness :
  nonblocking_socketpair linux 1 2 17 (fresh_world [])
  = (Raise (Exn (ValueError msg_family) None), fresh_world []) /\
  nonblocking_socketpair linux 2 2 17 (fresh_world [])
  = (Raise (Exn (ValueError msg_socket_type) None), fresh_world []) /\
  nonblocking_socketpair linux 2 1 17 (fresh_world [])
  = (Raise (Exn (ValueError msg_proto) None), fresh_world []).
Proof.
  split; [|split].
  - apply (validation_order linux 1 2 17); cbn; lia.
  - apply (validation_order linux 2 2 17); cbn; [left|]; lia.
  - apply (validation_order linux 2 1 17); cbn; [left| |]; lia.
Defined.

(** ** The returned pair is non-blocking *)

Lemma bind_Ok {A B} (m : M A) (k : A -> M B) (w w' : world) (b : B) :
  bind m k w = (Ok b, w') ->
  exists a w1, m w = (Ok a, w1) /\ k a w1 = (Ok b, w').
Proof.
  unfold bind. destruct (m w) as [[a|x] w1]; [eauto | discriminate].
Qed.

(** A [setblocking] that returns has set the flag of its socket and has left
    the other sockets alone. *)
Lemma setblocking_Ok (fd : nat) (flag : bool) (w w' : world) :
  sock_setblocking fd flag w = (Ok tt, w') ->
  is_blocking w' fd = Some flag /\
  forall fd', fd' <> fd -> w_socks w' !! fd' = w_socks w !! fd'.
Proof.
  unfold sock_setblocking, sys, on_sock, pop_fault, is_blocking.
  destruct (hd None (w_script w)); [discriminate|]. cbn.
  destruct (w_socks w !! fd) as [s|] eqn:Hs; [|discriminate].
  destruct (s_open s); [|discriminate].
  intros [= <-]. cbn. split.
  - by rewrite list_lookup_alter_eq, Hs.
  - intros fd' Hne. by rewrite list_lookup_alter_ne.
Qed.

(** C1: whenever [nonblocking_socketpair] returns a pair, both sockets of
    the pair, the server side and the client side, have their blocking flag
    cleared in the world that the call returns in. *)
Theorem returned_sockets_are_nonblocking
    (P : platform) (family socket_type proto : Z) (w w' : world)
    (ssock csock : nat) :
  nonblocking_socketpair P family socket_type proto w
  = (Ok (ssock, csock), w') ->
  is_blocking w' ssock = Some false /\ is_blocking w' csock = Some false.
Proof.
  unfold nonblocking_socketpair. intros Hrun.
  apply bind_Ok in Hrun as (host & w1 & _ & Hrun).
  apply bind_Ok in Hrun as (_ & w2 & _ & Hrun).
  apply bind_Ok in Hrun as (_ & w3 & _ & Hrun).
  apply bind_Ok in Hrun as (lsock & w4 & _ & Hrun).
  apply bind_Ok in Hrun as ([c s] & w5 & _ & Hrun).
  apply bind_Ok in Hrun as ([] & w6 & Hc & Hrun).
  apply bind_Ok in Hrun as ([] & w7 & Hs & Hrun).
  injection Hrun as <- <- <-. cbn [fst snd] in *.
  apply setblocking_Ok in Hc as [Hc _], Hs as [Hs Hother].
  split; [exact Hs|].
  destruct (decide (c = s)) as [-> | Hne]; [exact Hs|].
  unfold is_blocking in *. by rewrite Hother.
Qed.

Lemma returned_sockets_are_nonblocking_witness :
  let w := fresh_world [] in
  let run := nonblocking_socketpair linux 2 1 0 w in
  run.1 = Ok (2%nat, 1%nat) /\
  is_blocking run.2 2 = Some false /\ is_blocking run.2 1 = Some false.
Proof.
  intros w run. split; [vm_compute; reflexivity|].
  apply (returned_sockets_are_nonblocking linux 2 1 0 w run.2 2 1).
  vm_compute. reflexivity.
Defined.

(** ** Running the handshake symbolically *)

(** The sockets that a call creates sit behind the sockets [pre] that were
    there before, at the indices [length pre + i]. *)
Section Frame.
Context {A : Type}.
Implicit Types (pre t u : list A) (i : nat).

Lemma lookup_frame pre t i : (pre ++ t) !! (length pre + i)%nat = t !! i.
Proof. rewrite lookup_app_r by lia. f_equal. lia. Qed.

Lemma alter_frame (f : A -> A) pre t i :
  alter f (length pre + i)%nat (pre ++ t) = pre ++ alter f i t.
Proof. apply alter_app_r. Qed.

Lemma length_frame pre t : length (pre ++ t) = (length pre + length t)%nat.
Proof. apply length_app. Qed.

Lemma app_frame pre t u : (pre ++ t) ++ u = pre ++ (t ++ u).
Proof. by rewrite app_assoc. Qed.
End Frame.

Lemma eqb_frame (n i j : nat) : Nat.eqb (n + i) (n + j) = Nat.eqb i j.
Proof.
  destruct (Nat.eqb_spec i j) as [-> | Hne].
  - apply Nat.eqb_refl.
  - apply Nat.eqb_neq. lia.
Qed.

Lemma issued_nothing (w : world) (evs : list event) :
  issued w w evs -> evs = [].
Proof.
  unfold issued. intros H. apply (app_inv_head (w_trace w)).
  by rewrite app_nil_r.
Qed.

Ltac frame :=
  repeat first
    [ rewrite lookup_frame | rewrite alter_frame | rewrite length_frame
    | rewrite app_frame | rewrite eqb_frame ].

Ltac unfold_run :=
  cbv beta iota zeta delta
    [nonblocking_socketpair bind try_finally try_except_Exception_reraise
     while_handling socket_socket sock_bind sock_listen sock_getsockname
     sock_connect sock_accept sock_close sock_setblocking sys on_sock
     pop_fault log alter_sock set_socks ret raise assign_port slice2
     issued is_open is_blocking
     w_socks w_trace w_script w_port w_pending fst snd].

(** Puts the world into the shape [pre ++ []] with the new sockets counted
    from [length pre + 0]. *)
Ltac open_world w socks tr sc port pend :=
  destruct w as [socks tr sc port pend];
  cbn [w_socks w_trace w_script w_port w_pending];
  let n := fresh "n" in
  set (n := length socks); rewrite <- (app_nil_r socks); subst n;
  rewrite <- (Nat.add_0_r (length socks)).

(** One step: the outcome of the next call, or the class of the exception
    that arrives at the [except] clause. *)
Ltac run_step :=
  cbn; frame; cbn;
  match goal with
  | |- context [hd None ?s] => destruct (hd None s) as [?e|] eqn:?
  | |- context [is_Exception ?e] => destruct (is_Exception e) eqn:?
  end.

Ltac run_all := repeat run_step; cbn; frame; cbn.

(** ** The listener *)

(** C4: on every run of [nonblocking_socketpair] in which the listener
    socket was created, whatever happens afterwards, [close()] is called on
    the listener exactly once before the call returns or raises, and the
    listener is closed in the world the call ends in. *)
Theorem listener_closed_exactly_once
    (P : platform) (family socket_type proto : Z) (w : world)
    (rest : list event) :
  issued w (nonblocking_socketpair P family socket_type proto w).2
         (Ev (SysSocket family socket_type proto) None :: rest) ->
  count_close (length (w_socks w)) rest = 1%nat /\
  is_open (nonblocking_socketpair P family socket_type proto w).2
          (length (w_socks w)) = Some false.
Proof.
  assert (Hnone : forall x : exn,
    issued w (@Raise (nat * nat) x, w).2
           (Ev (SysSocket family socket_type proto) None :: rest) ->
    count_close (length (w_socks w)) rest = 1%nat /\
    is_open (@Raise (nat * nat) x, w).2 (length (w_socks w)) = Some false).
  { by intros x H%issued_nothing. }
  unfold nonblocking_socketpair at 1 2. unfold bind at 1 6.
  destruct (family =? AF_INET P) eqn:E4; [|destruct (family =? AF_INET6 P)].
  3: apply Hnone.
  all: cbn [ret raise]; unfold bind at 1 5;
    (destruct (socket_type =? SOCK_STREAM P); [|apply Hnone]);
    cbn [negb ret]; unfold bind at 1 4;
    (destruct (proto =? 0); [|apply Hnone]); cbn [negb ret]; clear Hnone E4.
  all: open_world w socks tr sc port pend; unfold_run; run_all.
  all: intros H%app_inv_head; simplify_eq; cbn; frame; cbn; auto.
Qed.

Lemma listener_closed_exactly_once_witness :
  let w := fresh_world [None; None; None; None; None; Some (OSError ECONNREFUSED)] in
  let run := nonblocking_socketpair linux 2 1 0 w in
  count_close 0 (tl (w_trace run.2)) = 1%nat /\ is_open run.2 0 = Some false.
Proof.
  intros w run.
  apply (listener_closed_exactly_once linux 2 1 0 w (tl (w_trace run.2))).
  vm_compute. reflexivity.
Defined.

(** The host that the family check selects. *)
Lemma select_host (P : platform) (family : Z) :
  family = AF_INET P \/ family = AF_INET6 P ->
  (if family =? AF_INET P then ret _LOCALHOST
   else if family =? AF_INET6 P then ret _LOCALHOST_V6
   else raise (Exn (ValueError msg_family) None))
  = ret (if family =? AF_INET P then _LOCALHOST else _LOCALHOST_V6).
Proof.
  intros [-> | ->]; rewrite ?Z.eqb_refl; [done|].
  by destruct (AF_INET6 P =? AF_INET P).
Qed.

(** Names the result of the run, selects the host and opens the world. *)
Ltac start_run Hfam host w socks tr sc port pend :=
  cbv zeta;
  match goal with
  | |- context [nonblocking_socketpair ?P ?f ?t ?p w] =>
      let res := fresh "res" in
      let w' := fresh "w'" in
      let Hrun := fresh "Hrun" in
      destruct (nonblocking_socketpair P f t p w) as [res w'] eqn:Hrun;
      revert Hrun; unfold nonblocking_socketpair;
      rewrite (select_host P f Hfam);
      generalize (if f =? AF_INET P then _LOCALHOST else _LOCALHOST_V6);
      intros host
  end;
  open_world w socks tr sc port pend; rewrite <- ?Nat.add_succ_r;
  unfold_run; rewrite ?Z.eqb_refl.

Ltac run_known :=
  cbn; frame; cbn;
  match goal with
  | H : hd None ?s = _ |- context [hd None ?s] => rewrite H
  | H : is_Exception ?e = _ |- context [is_Exception ?e] => rewrite H
  end.

(** ** The client-side socket *)

(** C3, counterexample: accept is interrupted ([KeyboardInterrupt], which is
    no [Exception]).  The [except Exception] clause does not catch it, so
    [close()] is never called on the client-side socket: the interrupt
    reaches the caller with the client-side socket still open, while the
    listener is closed by the [finally] clause. *)
Lemma interrupted_accept_skips_client_close :
  let w := fresh_world
             [None; None; None; None; None; None; Some KeyboardInterrupt] in
  let run := nonblocking_socketpair linux 2 1 0 w in
  w_trace run.2 !! 4%nat = Some (Ev (SysSocket 2 1 0) None) /\
  w_trace run.2 !! 6%nat = Some (Ev (SysAccept 0) (Some KeyboardInterrupt)) /\
  run.1 = Raise (Exn KeyboardInterrupt None) /\
  count_close 1 (w_trace run.2) = 0%nat /\
  is_open run.2 1 = Some true /\
  is_open run.2 0 = Some false.
Proof.
  intros w run. vm_compute. repeat split; reflexivity.
Qed.

(** C3, amended: when connect or accept raises an [Exception] after the
    client-side socket was created, the next call is [close()] on the
    client-side socket, the error reaches the caller after it, and the
    client-side socket is closed in the world the call ends in. *)
Theorem client_closed_when_handshake_fails
    (P : platform) (family : Z) (w : world) (e : exc) :
  family = AF_INET P \/ family = AF_INET6 P ->
  is_Exception e = true ->
  outcomes [None; None; None; None; None; Some e] (w_script w) \/
  outcomes [None; None; None; None; None; None; Some e] (w_script w) ->
  let run := nonblocking_socketpair P family (SOCK_STREAM P) 0 w in
  let lsock := length (w_socks w) in
  let csock := S (length (w_socks w)) in
  exists x before call r after,
    run.1 = Raise x /\
    issued w run.2
      (before ++ [Ev call (Some e); Ev (SysClose csock) r] ++ after) /\
    ((exists a, call = SysConnect csock a) \/ call = SysAccept lsock) /\
    is_open run.2 csock = Some false.
Proof.
  intros Hfam He Hout.
  start_run Hfam host w socks tr sc port pend.
  cbn [outcomes w_script] in Hout.
  destruct Hout as [Hout | Hout]; destruct_and!.
  all: repeat run_known.
  all: run_all.
  all: intros [= <- <-]; cbn; frame; cbn.
  all: first
    [ eexists _, [_; _; _; _; _], _, _, _;
      split; [reflexivity|]; split; [reflexivity|];
      split; [left; eexists; reflexivity | reflexivity]
    | eexists _, [_; _; _; _; _; _], _, _, _;
      split; [reflexivity|]; split; [reflexivity|];
      split; [right; reflexivity | reflexivity] ].
Qed.

Lemma client_closed_when_handshake_fails_witness :
  let w := fresh_world
             [None; None; None; None; None; Some (OSError ECONNREFUSED)] in
  let run := nonblocking_socketpair linux 2 1 0 w in
  exists x before call r after,
    run.1 = Raise x /\
    issued w run.2
      (before ++ [Ev call (Some (OSError ECONNREFUSED));
                  Ev (SysClose 1) r] ++ after) /\
    ((exists a, call = SysConnect 1 a) \/ call = SysAccept 0) /\
    is_open run.2 1 = Some false.
Proof.
  intros w run.
  apply (client_closed_when_handshake_fails linux 2 w (OSError ECONNREFUSED)).
  - left. reflexivity.
  - reflexivity.
  - left. vm_compute. tauto.
Defined.

(** ** Errors during the cleanup *)

(** C5, counterexample: connect raises ECONNREFUSED, the close of the
    client then raises EIO, and the caller gets EIO instead of the original
    error. *)
Lemma close_failure_replaces_original_error :
  let w := fresh_world
             [None; None; None; None; None;
              Some (OSError ECONNREFUSED); Some (OSError EIO)] in
  let run := nonblocking_socketpair linux 2 1 0 w in
  w_trace run.2 !! 5%nat
  = Some (Ev (SysConnect 1 ("127.0.0.1"%string, 49152))
             (Some (OSError ECONNREFUSED))) /\
  run.1 = Raise (Exn (OSError EIO) (Some (Exn (OSError ECONNREFUSED) None))) /\
  ~ (exists context, run.1 = Raise (Exn (OSError ECONNREFUSED) context)).
Proof.
  intros w run. split; [|split].
  - vm_compute. reflexivity.
  - vm_compute. reflexivity.
  - intros [context H]. vm_compute in H. discriminate.
Qed.

(** C5, amended: when a call of the handshake after the creation of the
    listener raises [e] ([k] calls returned before it), the cleanup runs
    unconditionally and without error handling of its own: [close()] is
    called on the client-side socket (when connect or accept raised an
    [Exception]) and then on the listener, whatever the first close did, and
    nothing is called afterwards.  A close that raises replaces the error
    that was propagating, which survives only as its [__context__]; the
    original error reaches the caller only when no close raises. *)
Theorem cleanup_is_unconditional
    (P : platform) (family : Z) (w : world) (k : nat) (e : exc)
    (fc fl : option exc) :
  family = AF_INET P \/ family = AF_INET6 P ->
  (1 <= k <= 6)%nat ->
  outcomes (replicate k None ++ [Some e; fc; fl]) (w_script w) ->
  let run := nonblocking_socketpair P family (SOCK_STREAM P) 0 w in
  let lsock := length (w_socks w) in
  let csock := S (length (w_socks w)) in
  let cleanup :=
    if (5 <=? k)%nat && is_Exception e
    then [Ev (SysClose csock) fc; Ev (SysClose lsock) fl]
    else [Ev (SysClose lsock) fc] in
  exists before call,
    length before = k /\
    issued w run.2 (before ++ Ev call (Some e) :: cleanup) /\
    run.1 = Raise (fold_left (fun x ev => after_close (ev_err ev) x)
                             cleanup (Exn e None)).
Proof.
  intros Hfam Hk Hout.
  start_run Hfam host w socks tr sc port pend.
  assert (Hcases : (k = 1 \/ k = 2 \/ k = 3 \/ k = 4 \/ k = 5 \/ k = 6)%nat)
    by lia.
  clear Hk Hfam. destruct_or!; subst k.
  all: cbn [outcomes w_script replicate app] in Hout; destruct_and!.
  all: destruct (is_Exception e) eqn:He, fc, fl.
  all: repeat run_known.
  all: cbn; frame; cbn; intros [= <- <-]; cbn; frame; cbn.
  all: first
    [ by eexists [_], _
    | by eexists [_; _], _
    | by eexists [_; _; _], _
    | by eexists [_; _; _; _], _
    | by eexists [_; _; _; _; _], _
    | by eexists [_; _; _; _; _; _], _ ].
Qed.

Lemma cleanup_is_unconditional_witness :
  let w := fresh_world
             [None; None; None; None; None;
              Some (OSError ECONNREFUSED); Some (OSError EIO); None] in
  let run := nonblocking_socketpair linux 2 1 0 w in
  exists before call,
    length before = 5%nat /\
    issued w run.2
      (before ++ [Ev call (Some (OSError ECONNREFUSED));
                  Ev (SysClose 1) (Some (OSError EIO));
                  Ev (SysClose 0) None]) /\
    run.1 = Raise (Exn (OSError EIO) (Some (Exn (OSError ECONNREFUSED) None))).
Proof.
  intros w run.
  apply (cleanup_is_unconditional linux 2 w 5 (OSError ECONNREFUSED)
           (Some (OSError EIO)) None).
  - left. reflexivity.
  - lia.
  - vm_compute. tauto.
Defined.

(** ** Binding and listening *)

Lemma selected_host_is_loopback (P : platform) (family : Z) :
  AF_INET P <> AF_INET6 P ->
  family = AF_INET P \/ family = AF_INET6 P ->
  (if family =? AF_INET P then _LOCALHOST else _LOCALHOST_V6)
  = loopback_literal P family.
Proof.
  unfold loopback_literal. intros Hne [-> | ->]; rewrite Z.eqb_refl.
  - by apply Z.eqb_neq in Hne as ->.
  - assert ((AF_INET6 P =? AF_INET P) = false) as -> by (apply Z.eqb_neq; lia).
    done.
Qed.

(** C7: for a supported family, when the creation of the listener, its bind
    and its listen return, the calls were, in this order, [socket()], bind
    of the listener to the loopback literal of the family and port 0, and
    listen with the backlog [min(SOMAXCONN, 128)]; and the listener is bound
    to the loopback literal on the port the host assigned and listens with
    that backlog, whatever happens in the rest of the run. *)
Theorem listener_bound_to_loopback_and_listening
    (P : platform) (family : Z) (w : world) :
  AF_INET P <> AF_INET6 P ->
  family = AF_INET P \/ family = AF_INET6 P ->
  outcomes [None; None; None] (w_script w) ->
  let run := nonblocking_socketpair P family (SOCK_STREAM P) 0 w in
  let lsock := length (w_socks w) in
  let backlog := Z.min (SOMAXCONN P) 128 in
  exists rest s,
    issued w run.2
      (Ev (SysSocket family (SOCK_STREAM P) 0) None
       :: Ev (SysBind lsock (loopback_literal P family, 0)) None
       :: Ev (SysListen lsock backlog) None :: rest) /\
    w_socks run.2 !! lsock = Some s /\
    s_bound s = Some (loopback_literal P family, w_port w) /\
    s_backlog s = Some backlog.
Proof.
  intros Hne Hfam Hout. cbv zeta.
  destruct (nonblocking_socketpair P family (SOCK_STREAM P) 0 w)
    as [res w'] eqn:Hrun.
  revert Hrun. unfold nonblocking_socketpair.
  rewrite (select_host P family Hfam).
  rewrite (selected_host_is_loopback P family Hne Hfam).
  generalize (loopback_literal P family). intros host. clear Hne Hfam.
  open_world w socks tr sc port pend.
  cbn [outcomes w_script] in Hout. destruct_and!.
  unfold_run. rewrite ?Z.eqb_refl. repeat run_known. run_all.
  all: intros [= <- <-]; cbn; frame; cbn.
  all: eexists _, _; repeat split; reflexivity.
Qed.

Lemma listener_bound_to_loopback_and_listening_witness :
  let w := fresh_world
             [None; None; None; None; None; Some (OSError ECONNREFUSED)] in
  let run := nonblocking_socketpair linux 10 1 0 w in
  exists rest s,
    issued w run.2
      (Ev (SysSocket 10 1 0) None
       :: Ev (SysBind 0 ("::1"%string, 0)) None
       :: Ev (SysListen 0 128) None :: rest) /\
    w_socks run.2 !! 0%nat = Some s /\
    s_bound s = Some ("::1"%string, 49152) /\
    s_backlog s = Some 128.
Proof.
  intros w run.
  apply (listener_bound_to_loopback_and_listening linux 10 w).
  - cbn. lia.
  - right. reflexivity.
  - vm_compute. tauto.
Defined.

(** ** [as_bytes] *)

(** C9: [as_bytes] returns a [bytes] argument as it is, and applying it to
    its own result changes nothing, also when the first application
    raises. *)
Theorem as_bytes_idempotent :
  (forall b : bytes, as_bytes (PyBytes b) = Ok (PyBytes b)) /\
  (forall v : pyobj, result_bind (as_bytes v) as_bytes = as_bytes v).
Proof.
  split; [done|].
  intros [s | b | n]; cbn; [|done..].
  by destruct (str_encode_utf8 s).
Qed.

(** ** [to_digit] *)

Local Open Scope N_scope.

Lemma find_run_Some (c : N) (runs : list (N * N)) (r : N * N) :
  find_run c runs = Some r -> r ∈ runs /\ in_run c r = true.
Proof.
  induction runs as [|r' runs IH]; cbn; [done|].
  destruct (in_run c r') eqn:Hin.
  - intros [= <-]. split; [left | done].
  - intros [Hr ?]%IH. split; [by right | done].
Qed.

(** Below 127 the only digits are 0 to 9, and no digit is whitespace. *)
Lemma digit_runs_ok :
  forallb run_ok (decimal_runs ++ other_digit_runs) = true.
Proof. vm_compute. reflexivity. Qed.

Lemma is_digit_run (c : N) :
  is_digit c = true ->
  exists r, r ∈ decimal_runs ++ other_digit_runs /\ in_run c r = true.
Proof.
  unfold is_digit, is_decimal, to_decimal. intros H.
  destruct (find_run c decimal_runs) as [r|] eqn:Hd.
  - apply find_run_Some in Hd as [Hr Hin]. exists r. split; [|done].
    apply elem_of_app. by left.
  - destruct (find_run c other_digit_runs) as [r|] eqn:Ho; [|done].
    apply find_run_Some in Ho as [Hr Hin]. exists r. split; [|done].
    apply elem_of_app. by right.
Qed.

Lemma run_ok_elem (r : N * N) :
  r ∈ decimal_runs ++ other_digit_runs -> run_ok r = true.
Proof.
  intros Hr. pose proof digit_runs_ok as H.
  rewrite forallb_forall in H. apply H. by apply list_elem_of_In.
Qed.

Lemma digit_below_127 (c : N) :
  is_digit c = true -> c < 127 -> is_ascii_digit c = true.
Proof.
  intros (r & Hr%run_ok_elem & Hin)%is_digit_run Hc.
  unfold run_ok in Hr. unfold in_run in Hin. unfold is_ascii_digit.
  apply andb_prop in Hr as [Hr _]. apply andb_prop in Hin as [H1 H2].
  apply N.leb_le in H1. apply N.ltb_lt in H2.
  apply orb_prop in Hr as [Hr | Hr].
  - apply N.leb_le in Hr. lia.
  - apply andb_prop in Hr as [Ha Hb].
    apply N.leb_le in Ha, Hb. apply andb_true_intro.
    split; apply N.leb_le; lia.
Qed.

Lemma digit_not_space (c : N) : is_digit c = true -> is_space c = false.
Proof.
  intros (r & Hr%run_ok_elem & Hin)%is_digit_run.
  unfold is_space. destruct (find_run c space_runs) as [sp|] eqn:Hs; [|done].
  apply find_run_Some in Hs as [Hsp Hin'].
  unfold run_ok in Hr. apply andb_prop in Hr as [_ Hr].
  rewrite forallb_forall in Hr. specialize (Hr sp).
  rewrite <- list_elem_of_In in Hr. specialize (Hr Hsp).
  unfold in_run in *.
  apply andb_prop in Hin as [H1 H2], Hin' as [H3 H4].
  apply N.leb_le in H1, H3. apply N.ltb_lt in H2, H4.
  apply orb_prop in Hr as [Hr | Hr]; apply N.leb_le in Hr; lia.
Qed.

Lemma decimal_is_digit (c : N) : is_decimal c = true -> is_digit c = true.
Proof. unfold is_digit. by intros ->. Qed.

(** A decimal digit is mapped to an ASCII digit before [int] parses it. *)
Lemma decimal_to_ascii (c : N) :
  is_decimal c = true -> is_ascii_digit (int_to_ascii c) = true.
Proof.
  intros Hdec. pose proof (decimal_is_digit c Hdec) as Hdig.
  unfold int_to_ascii. destruct (c <? 127) eqn:Hc.
  - apply digit_below_127; [done|]. by apply N.ltb_lt.
  - rewrite (digit_not_space c Hdig).
    unfold is_decimal in Hdec. unfold to_decimal in *.
    destruct (find_run c decimal_runs) as [r|]; [|done].
    assert (Hd : (c - r.1) mod 10 < 10) by (by apply N.mod_upper_bound).
    clear Hdec. revert Hd. generalize ((c - r.1) mod 10). intros d Hd.
    unfold is_ascii_digit. apply andb_true_intro. split; apply N.leb_le; lia.
Qed.

Lemma ascii_digit_bounds (c : N) :
  is_ascii_digit c = true -> 0x30 <= c <= 0x39.
Proof.
  unfold is_ascii_digit. intros [H1 H2]%andb_prop.
  apply N.leb_le in H1, H2. lia.
Qed.

(** A run of ASCII digits is read to its end and has a value that is not
    negative. *)
Lemma scan_digits_all (a : str) (acc : Z) (n : nat) :
  Forall (fun c => is_ascii_digit c = true) a -> (0 <= acc)%Z ->
  exists v, scan_digits a false acc n = Some (v, (n + length a)%nat, [])
            /\ (0 <= v)%Z.
Proof.
  intros Ha. revert acc n.
  induction Ha as [|c a Hc Ha IH]; intros acc n Hacc; cbn.
  - exists acc. by rewrite Nat.add_0_r.
  - pose proof (ascii_digit_bounds c Hc) as Hb.
    assert ((c =? 0x5F) = false) as -> by (apply N.eqb_neq; lia).
    rewrite Hc.
    destruct (IH (10 * acc + Z.of_N (c - 48))%Z (S n)) as (v & Hv & Hpos);
      [lia|].
    exists v. split; [|done]. rewrite Hv. do 3 f_equal. lia.
Qed.

Lemma py_int_decimal (limit : nat) (g : str) :
  g <> [] -> Forall (fun c => is_decimal c = true) g ->
  (limit = 0 \/ length g <= limit)%nat ->
  exists n, py_int limit g = Ok n /\ (0 <= n)%Z.
Proof.
  intros Hne Hdec Hlim.
  assert (Ha : Forall (fun c => is_ascii_digit c = true) (map int_to_ascii g)).
  { apply Forall_map. eapply Forall_impl; [exact Hdec|].
    intros c. apply decimal_to_ascii. }
  unfold py_int. destruct g as [|c g]; [done|]. cbn [map] in *.
  pose proof (ascii_digit_bounds _ (Forall_inv Ha)) as Hb.
  set (c' := int_to_ascii c) in *. cbn [skip_space]. unfold c_isspace.
  assert ((c' =? 0x20) = false) as -> by (apply N.eqb_neq; lia).
  assert ((c' <=? 0x0D) = false) as -> by (apply N.leb_gt; lia).
  rewrite andb_false_r. cbn [orb split_sign].
  assert ((c' =? 0x2B) = false) as -> by (apply N.eqb_neq; lia).
  assert ((c' =? 0x2D) = false) as -> by (apply N.eqb_neq; lia).
  cbn [starts_with_underscore].
  assert ((c' =? 0x5F) = false) as -> by (apply N.eqb_neq; lia).
  destruct (scan_digits_all (c' :: map int_to_ascii g) 0 0 Ha) as (v & -> & Hv);
    [lia|].
  cbn [length Nat.add Nat.eqb]. rewrite length_map.
  assert ((negb (Nat.eqb limit 0) && Nat.ltb limit (S (length g))) = false)
    as ->.
  { cbn [length] in Hlim. destruct Hlim as [-> | Hle]; [done|].
    apply andb_false_intro2. apply Nat.ltb_ge. lia. }
  cbn. by exists v.
Qed.

(** A greedy repetition that succeeds has taken a non-empty prefix of
    matching characters and continued with the rest. *)
Lemma plus_greedy_Some {R} (p : N -> bool) (s : str) (k : str -> option R)
    (r : R) :
  plus_greedy p s k = Some r ->
  exists pre rest,
    s = pre ++ rest /\ pre <> [] /\ Forall (fun c => p c = true) pre
    /\ k rest = Some r.
Proof.
  revert r. induction s as [|c s IH]; intros r; cbn; [done|].
  destruct (p c) eqn:Hp; [|done].
  destruct (plus_greedy p s k) as [r'|] eqn:Hplus.
  - intros [= ->]. destruct (IH r eq_refl) as (pre & rest & -> & _ & Hpre & Hk).
    exists (c :: pre), rest. repeat split; [done | by constructor | done].
  - intros Hk. exists [c], s. repeat split; [done | by constructor | done].
Qed.

(** What [RE_NUM] captures: one group, a non-empty prefix of decimal
    digits. *)
Lemma RE_NUM_groups (s : str) (gs : list str) :
  re_match RE_NUM s = Some gs ->
  exists g, gs = [g] /\ g <> [] /\ Forall (fun c => is_decimal c = true) g
            /\ (length g <= length s)%nat.
Proof.
  unfold re_match, RE_NUM. cbn [rmatch app].
  intros (pre & rest & -> & Hne & Hpre & Hk)%plus_greedy_Some.
  apply plus_greedy_Some in Hk as (_ & _ & _ & _ & _ & [= <-]).
  exists pre. rewrite length_app.
  replace (length pre + length rest - length rest)%nat with (length pre)
    by lia.
  rewrite take_app_length. repeat split; [done | done | lia].
Qed.

Lemma RE_NUM_needs_decimal (s : str) :
  match s with
  | [] => True
  | c :: _ => is_decimal c = false
  end ->
  re_match RE_NUM s = None.
Proof.
  unfold re_match, RE_NUM. cbn [rmatch]. destruct s as [|c s]; [done|].
  cbn. by intros ->.
Qed.

(** Where no digit of the string is a non-decimal digit, [to_digit] returns
    a number that is not negative (within the configured limit on the number
    of digits). *)
Lemma to_digit_on_decimal_digits (limit : nat) (s : str) :
  Forall (fun c => is_digit c = true -> is_decimal c = true) s ->
  (limit = 0 \/ length s <= limit)%nat ->
  exists n, to_digit limit s = Ok n /\ (0 <= n)%Z.
Proof.
  intros Hs Hlim. unfold to_digit.
  destruct (str_isdigit s) eqn:Hdig.
  - apply py_int_decimal; [by destruct s | | done].
    assert (Hall : forallb is_digit s = true) by (by destruct s).
    rewrite forallb_forall in Hall. rewrite Forall_forall in Hs.
    apply Forall_forall. intros c Hc. apply Hs; [done|].
    apply Hall. by apply list_elem_of_In.
  - destruct (re_match RE_NUM s) as [gs|] eqn:Hre; [|by exists 0%Z].
    apply RE_NUM_groups in Hre as (g & -> & Hne & Hg & Hlen). cbn.
    apply py_int_decimal; [done | done | lia].
Qed.

(** A string that is not made of digits only and does not begin with a
    decimal digit gives 0. *)
Lemma to_digit_without_leading_decimal (limit : nat) (s : str) :
  str_isdigit s = false ->
  match s with
  | [] => True
  | c :: _ => is_decimal c = false
  end ->
  to_digit limit s = Ok 0%Z.
Proof.
  intros Hdig Hs. unfold to_digit.
  by rewrite Hdig, (RE_NUM_needs_decimal s Hs).
Qed.

(** C10, the failing input: the string [²] (U+00B2, SUPERSCRIPT TWO) passes
    [isdigit()] although it is no decimal digit, [int()] rejects it, and
    [to_digit] raises [ValueError] where the claim promises 0. *)
Theorem to_digit_raises_on_superscript_two (limit : nat) :
  str_isdigit [0xB2] = true /\
  is_decimal 0xB2 = false /\
  to_digit limit [0xB2] = Raise invalid_literal.
Proof. repeat split. Qed.

Local Close Scope N_scope.

(** ** More on [to_digit] and [int] *)

Local Open Scope N_scope.

(** The value that a run of ASCII digits denotes, read after [acc]. *)
Lemma scan_digits_value (a : str) (acc : Z) (n : nat) :
  Forall (fun c => is_ascii_digit c = true) a ->
  scan_digits a false acc n
  = Some (fold_left (fun v c => (10 * v + Z.of_N (c - 0x30))%Z) a acc,
          (n + length a)%nat, []).
Proof.
  intros Ha. revert acc n.
  induction Ha as [|c a Hc Ha IH]; intros acc n; cbn.
  - by rewrite Nat.add_0_r.
  - pose proof (ascii_digit_bounds c Hc) as Hb.
    assert ((c =? 0x5F) = false) as -> by (apply N.eqb_neq; lia).
    rewrite Hc, IH. do 3 f_equal. lia.
Qed.

Lemma ascii_digit_to_ascii (c : N) :
  is_ascii_digit c = true -> int_to_ascii c = c.
Proof.
  intros Hb%ascii_digit_bounds. unfold int_to_ascii.
  assert ((c <? 127) = true) as -> by (apply N.ltb_lt; lia). done.
Qed.

Lemma map_ascii_digits (ds : str) :
  Forall (fun c => is_ascii_digit c = true) ds -> map int_to_ascii ds = ds.
Proof.
  induction 1 as [|c ds Hc _ IH]; cbn; [done|].
  by rewrite IH, ascii_digit_to_ascii.
Qed.

(** [int] of a non-empty string of ASCII digits, with a minus sign in front
    or without. *)
Lemma py_int_ascii_digits (limit : nat) (negative : bool) (ds : str) :
  ds <> [] -> Forall (fun c => is_ascii_digit c = true) ds ->
  (limit = 0 \/ length ds <= limit)%nat ->
  py_int limit (if negative then 0x2D :: ds else ds)
  = Ok (let v := fold_left (fun v c => (10 * v + Z.of_N (c - 0x30))%Z) ds 0%Z
        in if negative then (- v)%Z else v).
Proof.
  intros Hne Hds Hlim. unfold py_int.
  destruct ds as [|c ds]; [done|].
  pose proof (ascii_digit_bounds _ (Forall_inv Hds)) as Hb.
  assert (Hsplit : split_sign (skip_space (map int_to_ascii
                     (if negative then 0x2D :: c :: ds else c :: ds)))
                   = (negative, c :: ds)).
  { destruct negative; cbn [map]; rewrite (map_ascii_digits ds),
      ?(ascii_digit_to_ascii c); try (by inversion Hds); try (by cbn).
    cbn [skip_space]. unfold c_isspace.
    assert ((c =? 0x20) = false) as -> by (apply N.eqb_neq; lia).
    assert ((c <=? 0x0D) = false) as -> by (apply N.leb_gt; lia).
    rewrite andb_false_r. cbn [orb split_sign].
    assert ((c =? 0x2B) = false) as -> by (apply N.eqb_neq; lia).
    by assert ((c =? 0x2D) = false) as -> by (apply N.eqb_neq; lia). }
  destruct negative.
  all: cbv zeta; rewrite Hsplit; cbn [starts_with_underscore].
  all: assert ((c =? 0x5F) = false) as -> by (apply N.eqb_neq; lia).
  all: rewrite (scan_digits_value (c :: ds) 0 0 Hds).
  all: cbn [length Nat.add Nat.eqb].
  all: assert ((negb (Nat.eqb limit 0) && Nat.ltb limit (S (length ds)))
               = false) as ->
    by (cbn [length] in Hlim; destruct Hlim as [-> | Hle]; [done|];
        apply andb_false_intro2; apply Nat.ltb_ge; lia).
  all: done.
Qed.

(** The matcher on a run of matching characters: the longest run is tried
    first; when the rest of the pattern fails there, the run is shortened
    by one character. *)
Lemma plus_greedy_stops {R} (p : N -> bool) (rest : str)
    (k : str -> option R) :
  stops p rest -> plus_greedy p rest k = None.
Proof. destruct rest as [|c rest]; cbn; [done|]. by intros ->. Qed.

Lemma plus_greedy_longest {R} (p : N -> bool) (pre rest : str)
    (k : str -> option R) (r : R) :
  pre <> [] -> Forall (fun c => p c = true) pre -> stops p rest ->
  k rest = Some r ->
  plus_greedy p (pre ++ rest) k = Some r.
Proof.
  intros Hne Hpre Hstop Hk. induction Hpre as [|c pre Hc Hpre IH]; [done|].
  cbn. rewrite Hc. destruct pre as [|c' pre].
  - cbn [app]. by rewrite (plus_greedy_stops p rest k Hstop).
  - by rewrite IH.
Qed.

Lemma plus_greedy_backtrack {R} (p : N -> bool) (pre rest : str) (d : N)
    (k : str -> option R) (r : R) :
  pre <> [] -> Forall (fun c => p c = true) pre -> p d = true ->
  stops p rest -> k rest = None -> k (d :: rest) = Some r ->
  plus_greedy p (pre ++ d :: rest) k = Some r.
Proof.
  intros Hne Hpre Hd Hstop Hnone Hk.
  assert (Hlast : plus_greedy p (d :: rest) k = None).
  { cbn. by rewrite Hd, (plus_greedy_stops p rest k Hstop). }
  induction Hpre as [|c pre Hc Hpre IH]; [done|].
  cbn. rewrite Hc. destruct pre as [|c' pre].
  - cbn [app]. by rewrite Hlast.
  - by rewrite IH.
Qed.

Lemma plus_greedy_const {R} (p : N -> bool) (c : N) (s : str) (x : R) :
  p c = true -> plus_greedy p (c :: s) (fun _ => Some x) = Some x.
Proof.
  intros Hc. cbn. rewrite Hc.
  destruct (plus_greedy p s (fun _ => Some x)) as [r|] eqn:Hr; [|done].
  by apply plus_greedy_Some in Hr as (_ & _ & _ & _ & _ & [= ->]).
Qed.

Lemma str_isdigit_app_other (ds rest : str) (c : N) :
  is_digit c = false -> str_isdigit (ds ++ c :: rest) = false.
Proof.
  intros Hc. unfold str_isdigit.
  destruct (ds ++ c :: rest) as [|x s] eqn:Hs; [done|].
  rewrite <- Hs, forallb_app. cbn. rewrite Hc.
  by rewrite andb_false_r.
Qed.

Lemma take_prefix (pre rest : str) :
  take (length (pre ++ rest) - length rest) (pre ++ rest) = pre.
Proof.
  rewrite length_app.
  replace (length pre + length rest - length rest)%nat with (length pre)
    by lia.
  apply take_app_length.
Qed.

(** What [RE_NUM] captures from a run of decimal digits followed by a
    character that is no decimal digit and no newline: the whole run. *)
Lemma RE_NUM_after_digits (ds rest : str) (c : N) :
  ds <> [] -> Forall (fun d => is_decimal d = true) ds ->
  is_decimal c = false -> c <> 0x0A ->
  re_match RE_NUM (ds ++ c :: rest) = Some [ds].
Proof.
  intros Hne Hds Hdec Hnl. unfold re_match, RE_NUM. cbn [rmatch app].
  rewrite (plus_greedy_longest is_decimal ds (c :: rest) _ [ds]);
    [done | done | done | exact Hdec |].
  rewrite (take_prefix ds (c :: rest)).
  apply plus_greedy_const. cbn. by apply negb_true_iff, N.eqb_neq.
Qed.

Lemma not_digit_not_decimal (c : N) : is_digit c = false -> is_decimal c = false.
Proof.
  intros Hc. destruct (is_decimal c) eqn:E; [|done].
  by rewrite (decimal_is_digit c E) in Hc.
Qed.

(** A run of decimal digits followed by other text: the value is that of
    the run, whatever follows, provided the character after the run is no
    digit of any kind and no newline. *)
Theorem to_digit_digits_then_text (limit : nat) (ds rest : str) (c : N) :
  ds <> [] -> Forall (fun d => is_decimal d = true) ds ->
  is_digit c = false -> c <> 0x0A ->
  to_digit limit (ds ++ c :: rest) = py_int limit ds.
Proof.
  intros Hne Hds Hc Hnl. unfold to_digit.
  rewrite (str_isdigit_app_other ds rest c Hc).
  by rewrite (RE_NUM_after_digits ds rest c Hne Hds
                (not_digit_not_decimal c Hc) Hnl).
Qed.

Lemma to_digit_digits_then_text_witness :
  to_digit 4300 ([0x34; 0x31] ++ 0x2D :: [0x72; 0x63]) = py_int 4300 [0x34; 0x31]
  /\ py_int 4300 [0x34; 0x31] = Ok 41%Z.
Proof.
  split; [|reflexivity].
  apply (to_digit_digits_then_text 4300 [0x34; 0x31] [0x72; 0x63] 0x2D).
  - discriminate.
  - repeat constructor.
  - reflexivity.
  - lia.
Defined.

(** A run of decimal digits followed by a newline loses its last digit: the
    rest of the pattern needs one character that is no newline, and the
    matcher gives it the last digit.  A single digit before the newline
    gives 0. *)
Theorem to_digit_before_newline (limit : nat) (ds rest : str) (d : N) :
  Forall (fun d => is_decimal d = true) ds -> is_decimal d = true ->
  to_digit limit (ds ++ d :: 0x0A :: rest)
  = match ds with
    | [] => Ok 0%Z
    | _ => py_int limit ds
    end.
Proof.
  intros Hds Hd. unfold to_digit.
  replace (ds ++ d :: 0x0A :: rest) with ((ds ++ [d]) ++ 0x0A :: rest)
    by (by rewrite <- app_assoc).
  rewrite (str_isdigit_app_other (ds ++ [d]) rest 0x0A eq_refl).
  rewrite <- app_assoc. cbn [app].
  assert (Hnl : d <> 0x0A) by (by intros ->).
  unfold re_match, RE_NUM. cbn [rmatch app].
  destruct ds as [|d' ds].
  - cbn. by rewrite Hd.
  - rewrite (plus_greedy_backtrack is_decimal (d' :: ds) (0x0A :: rest) d _
               [d' :: ds]); [done | done | done | done | done | done |].
    replace (d' :: ds ++ d :: 0x0A :: rest)
      with ((d' :: ds) ++ d :: 0x0A :: rest) by done.
    rewrite (take_prefix (d' :: ds) (d :: 0x0A :: rest)).
    apply plus_greedy_const. cbn. by apply negb_true_iff, N.eqb_neq.
Qed.

Lemma to_digit_before_newline_witness :
  to_digit 4300 ([0x31] ++ 0x32 :: 0x0A :: []) = py_int 4300 [0x31]
  /\ py_int 4300 [0x31] = Ok 1%Z.
Proof.
  split; [|reflexivity].
  apply (to_digit_before_newline 4300 [0x31] [] 0x32).
  - repeat constructor.
  - reflexivity.
Defined.

(** ** [long] *)

Lemma decimal_digit_ascii (n : N) : is_ascii_digit (0x30 + n mod 10) = true.
Proof.
  assert (Hd : n mod 10 < 10) by (by apply N.mod_upper_bound).
  revert Hd. generalize (n mod 10). intros d Hd.
  unfold is_ascii_digit. apply andb_true_intro. split; apply N.leb_le; lia.
Qed.

Lemma decimal_digits_ascii (fuel : nat) (n : N) (acc : str) :
  Forall (fun c => is_ascii_digit c = true) acc ->
  Forall (fun c => is_ascii_digit c = true) (decimal_digits fuel n acc).
Proof.
  revert n acc. induction fuel as [|fuel IH]; intros n acc Hacc; cbn; [done|].
  assert (Hacc' : Forall (fun c => is_ascii_digit c = true)
                         ((0x30 + n mod 10) :: acc)).
  { constructor; [apply decimal_digit_ascii | done]. }
  destruct (n / 10 =? 0); [done|]. by apply IH.
Qed.

Lemma decimal_digits_length (fuel : nat) (n : N) (acc : str) :
  (length acc <= length (decimal_digits fuel n acc))%nat.
Proof.
  revert n acc. induction fuel as [|fuel IH]; intros n acc; cbn; [done|].
  destruct (n / 10 =? 0); cbn; [lia|].
  etrans; [|apply IH]. cbn. lia.
Qed.

(** Read from left to right, the digits give [n] back. *)
Lemma decimal_digits_value (fuel : nat) (n : N) (acc : str) :
  n < 10 ^ N.of_nat fuel ->
  fold_left (fun v c => (10 * v + Z.of_N (c - 0x30))%Z)
            (decimal_digits fuel n acc) 0%Z
  = fold_left (fun v c => (10 * v + Z.of_N (c - 0x30))%Z) acc (Z.of_N n).
Proof.
  revert n acc. induction fuel as [|fuel IH]; intros n acc Hn.
  - cbn in *. by assert (n = 0) as -> by lia.
  - cbn [decimal_digits].
    assert (Hdiv : n = 10 * (n / 10) + n mod 10) by (apply N.div_mod; lia).
    assert (Hmod : n mod 10 < 10) by (by apply N.mod_upper_bound).
    rewrite Nat2N.inj_succ, N.pow_succ_r' in Hn.
    revert Hn Hdiv Hmod IH.
    generalize (n / 10) (n mod 10) (10 ^ N.of_nat fuel).
    intros q r bound Hn Hdiv Hmod IH.
    destruct (q =? 0) eqn:Hq.
    + apply N.eqb_eq in Hq. cbn [fold_left]. f_equal. lia.
    + rewrite IH by lia. cbn [fold_left]. f_equal. lia.
Qed.

Lemma decimal_fuel (n : N) : n < 10 ^ N.of_nat (S (N.to_nat (N.size n))).
Proof.
  rewrite Nat2N.inj_succ, N2Nat.id, N.pow_succ_r'.
  pose proof (N.size_gt n) as Hsize.
  assert (Hpow : 2 ^ N.size n <= 10 ^ N.size n)
    by (apply N.pow_le_mono_l; lia).
  lia.
Qed.

(** [int(str(n))] is [n]. *)
Lemma py_int_int_str (limit : nat) (n : Z) :
  (limit = 0 \/ length (int_str n) <= limit)%nat ->
  py_int limit (int_str n) = Ok n.
Proof.
  intros Hlim. unfold int_str in *. cbv zeta in *.
  set (m := Z.to_N (Z.abs n)) in *.
  set (ds := decimal_digits (S (N.to_nat (N.size m))) m []) in *.
  assert (Hascii : Forall (fun c => is_ascii_digit c = true) ds)
    by (by apply decimal_digits_ascii).
  assert (Hne : ds <> []).
  { unfold ds. cbn. by destruct (m / 10 =? 0);
      [|intros H; pose proof (decimal_digits_length (N.to_nat (N.size m))
          (m / 10) [0x30 + m mod 10]) as Hl; rewrite H in Hl; cbn in Hl; lia]. }
  assert (Hlen : (limit = 0 \/ length ds <= limit)%nat).
  { destruct Hlim as [? | Hle]; [by left | right].
    destruct (n <? 0)%Z; cbn [length] in Hle; lia. }
  rewrite (py_int_ascii_digits limit (n <? 0)%Z ds Hne Hascii Hlen).
  cbv zeta. unfold ds. rewrite decimal_digits_value by apply decimal_fuel.
  cbn [fold_left]. f_equal. unfold m.
  destruct (Z.ltb_spec n 0); lia.
Qed.

Lemma ascii_digit_decimal (c : N) :
  is_ascii_digit c = true -> is_decimal c = true.
Proof.
  intros Hc%ascii_digit_bounds. unfold is_decimal, to_decimal.
  assert (Hrun : find_run c decimal_runs = Some (0x30, 10)).
  { cbn [decimal_runs find_run]. unfold in_run at 1. cbn [fst snd].
    assert ((48 <=? c) = true) as -> by (apply N.leb_le; lia).
    by assert ((c <? 48 + 10) = true) as -> by (apply N.ltb_lt; lia). }
  by rewrite Hrun.
Qed.

(** [str(n)] for [n] that is not negative: decimal digits, at least one. *)
Lemma int_str_digits (n : Z) :
  (0 <= n)%Z ->
  int_str n <> [] /\ Forall (fun c => is_decimal c = true) (int_str n).
Proof.
  intros Hn. unfold int_str. cbv zeta.
  assert ((n <? 0)%Z = false) as -> by (apply Z.ltb_ge; lia). split.
  - cbn. destruct (_ =? 0); [done|]. intros H.
    match type of H with decimal_digits ?f ?q ?a = _ =>
      pose proof (decimal_digits_length f q a) as Hl end.
    rewrite H in Hl. cbn in Hl. lia.
  - eapply Forall_impl; [by apply decimal_digits_ascii|].
    apply ascii_digit_decimal.
Qed.

(** [int(str(long(n)))] is [n], for every [n] whose digits the limit of
    [int] admits. *)
Theorem long_str_reads_back (limit : nat) (n : Z) :
  (limit = 0 \/ length (long_str n) <= limit)%nat ->
  py_int limit (long_str n) = Ok n.
Proof. apply py_int_int_str. Qed.

Lemma long_str_reads_back_witness :
  py_int 4300 (long_str (-2024)) = Ok (-2024)%Z.
Proof.
  apply (long_str_reads_back 4300 (-2024)). right. vm_compute. lia.
Defined.

(** [to_digit] reads a [long] that is not negative back from its [repr],
    the digits with the [L] behind them. *)
Theorem to_digit_of_long_repr (limit : nat) (n : Z) :
  (0 <= n)%Z ->
  (limit = 0 \/ length (long_str n) <= limit)%nat ->
  to_digit limit (long_repr n) = Ok n.
Proof.
  intros Hn Hlim. destruct (int_str_digits n Hn) as [Hne Hdec].
  unfold long_repr, long_str in *. unfold to_digit.
  rewrite (str_isdigit_app_other (int_str n) [] 0x4C eq_refl).
  rewrite (RE_NUM_after_digits (int_str n) [] 0x4C Hne Hdec eq_refl)
    by done.
  cbn. by apply py_int_int_str.
Qed.

Lemma to_digit_of_long_repr_witness :
  to_digit 4300 (long_repr 1024) = Ok 1024%Z.
Proof.
  apply (to_digit_of_long_repr 4300 1024); [lia|]. right. vm_compute. lia.
Defined.

(** ** [byte] *)

Lemma byte_of_to_N (x : Byte.byte) : byte_of (Byte.to_N x) = x.
Proof. unfold byte_of. by rewrite Byte.of_to_N. Qed.

Lemma to_N_byte_of (n : N) : n < 256 -> Byte.to_N (byte_of n) = n.
Proof.
  intros Hn. unfold byte_of. destruct (Byte.of_N n) as [b|] eqn:Hb.
  - by apply Byte.to_of_N.
  - apply Byte.of_N_None_iff in Hb. lia.
Qed.

(** [byte] applied to the items of a [bytes] value gives the value back. *)
Theorem byte_of_bytes_items (b : bytes) : byte (bytes_items b) = Ok b.
Proof.
  unfold byte, bytes_items.
  assert (Hrange : forallb (fun n => (0 <=? n)%Z && (n <? 256)%Z)
                     (map (fun x => Z.of_N (Byte.to_N x)) b) = true).
  { apply forallb_forall. intros n [x [<- _]]%in_map_iff.
    pose proof (Byte.to_N_bounded x).
    apply andb_true_intro. split; [apply Z.leb_le | apply Z.ltb_lt]; lia. }
  rewrite Hrange, map_map. f_equal.
  rewrite <- (map_id b) at 2. apply map_ext. intros x.
  by rewrite N2Z.id, byte_of_to_N.
Qed.

(** [byte] returns exactly when every argument is in [range(0, 256)], and
    then the items of the result are the arguments; one argument outside
    the range makes it raise [ValueError]. *)
Theorem byte_checks_range (args : list Z) :
  (Forall (fun n => (0 <= n < 256)%Z) args ->
   exists b, byte args = Ok b /\ bytes_items b = args) /\
  (Exists (fun n => (n < 0 \/ 256 <= n)%Z) args ->
   byte args = Raise (Exn (ValueError "bytes must be in range(0, 256)") None)).
Proof.
  unfold byte. split.
  - intros Hall.
    assert (Hrange : forallb (fun n => (0 <=? n)%Z && (n <? 256)%Z) args
                     = true).
    { apply forallb_forall. intros n Hn%list_elem_of_In.
      rewrite Forall_forall in Hall. specialize (Hall n Hn).
      apply andb_true_intro. split; [apply Z.leb_le | apply Z.ltb_lt]; lia. }
    rewrite Hrange. eexists. split; [done|].
    unfold bytes_items. rewrite map_map.
    rewrite <- (map_id args) at 2. apply map_ext_in.
    intros n Hn%list_elem_of_In.
    rewrite Forall_forall in Hall. specialize (Hall n Hn).
    rewrite to_N_byte_of by lia. lia.
  - intros (n & Hn & Hout)%Exists_exists.
    assert (Hrange : forallb (fun n => (0 <=? n)%Z && (n <? 256)%Z) args
                     = false).
    { apply not_true_is_false. intros Hall.
      rewrite forallb_forall in Hall.
      specialize (Hall n (proj1 (list_elem_of_In _ _) Hn)).
      apply andb_prop in Hall as [H1%Z.leb_le H2%Z.ltb_lt]. lia. }
    by rewrite Hrange.
Qed.

Lemma byte_checks_range_witness :
  (exists b, byte [0; 65; 255]%Z = Ok b /\ bytes_items b = [0; 65; 255]%Z) /\
  byte [65; 256]%Z
  = Raise (Exn (ValueError "bytes must be in range(0, 256)") None).
Proof.
  split.
  - apply (proj1 (byte_checks_range [0; 65; 255]%Z)).
    repeat constructor; lia.
  - apply (proj2 (byte_checks_range [65; 256]%Z)).
    right. left. lia.
Defined.

(** ** Dictionary accessors *)

(** [dictkeys] and [dictvalues] run in step: the value at the position of a
    key is the value the dictionary holds for that key. *)
Theorem dictkeys_dictvalues_in_step {K V} `{EqDecision K}
    (dct : pydict K V) (i : nat) (key : K) :
  NoDup (dictkeys dct) ->
  dictkeys dct !! i = Some key ->
  dictvalues dct !! i = dict_getitem dct key.
Proof.
  revert i. induction dct as [|[k v] dct IH]; intros i Hnodup Hkey; [done|].
  cbn in *. apply NoDup_cons in Hnodup as [Hk Hnodup].
  destruct i as [|i]; cbn in *.
  - injection Hkey as ->. by rewrite decide_True.
  - rewrite decide_False; [by apply IH|].
    intros ->. apply Hk. by eapply list_elem_of_lookup_2.
Qed.

Lemma dictkeys_dictvalues_in_step_witness :
  dictvalues [(1%Z, "a"%string); (7%Z, "b"%string)] !! 1%nat
  = dict_getitem [(1%Z, "a"%string); (7%Z, "b"%string)] 7%Z.
Proof.
  apply (dictkeys_dictvalues_in_step [(1%Z, "a"%string); (7%Z, "b"%string)]
           1 7%Z).
  - cbn. apply NoDup_cons. split; [|apply NoDup_singleton].
    rewrite list_elem_of_singleton. lia.
  - reflexivity.
Defined.

(** ** Platform flags *)

(** No platform name sets two of the flags [ON_LINUX], [ON_OSX] and
    [ON_WINDOWS]. *)
Theorem platform_flags_exclusive (sys_platform : string) :
  ON_LINUX sys_platform && ON_OSX sys_platform = false /\
  ON_LINUX sys_platform && ON_WINDOWS sys_platform = false /\
  ON_OSX sys_platform && ON_WINDOWS sys_platform = false.
Proof.
  unfold ON_LINUX, ON_OSX, ON_WINDOWS.
  destruct (String.eqb_spec sys_platform "darwin") as [-> | _];
    [by repeat split|].
  destruct (String.eqb_spec sys_platform "win32") as [-> | _];
    [by repeat split|].
  repeat split; apply andb_false_r.
Qed.

(** ** [get_linux_version] *)

Lemma str_split_no_sep (sep : N) (maxsplit : option nat) (s : str) :
  sep ∉ s -> str_split sep maxsplit s = [s].
Proof.
  induction s as [|c s IH]; intros Hs; [done|].
  apply not_elem_of_cons in Hs as [Hc Hs]. cbn.
  destruct maxsplit as [[|m]|]; [done|..].
  all: assert ((c =? sep) = false) as -> by (by apply N.eqb_neq).
  all: by rewrite IH.
Qed.

Lemma str_split_at_sep (sep : N) (maxsplit : option nat) (s t : str) :
  sep ∉ s -> maxsplit <> Some 0%nat ->
  str_split sep maxsplit (s ++ sep :: t)
  = s :: str_split sep (pred <$> maxsplit) t.
Proof.
  intros Hs Hmax. induction s as [|c s IH]; cbn.
  - rewrite N.eqb_refl. by destruct maxsplit as [[|m]|].
  - apply not_elem_of_cons in Hs as [Hc Hs].
    assert ((c =? sep) = false) as -> by (by apply N.eqb_neq).
    rewrite IH by done. by destruct maxsplit as [[|m]|].
Qed.

Lemma str_split_nonempty (sep : N) (maxsplit : option nat) (s : str) :
  str_split sep maxsplit s <> [].
Proof.
  revert maxsplit. induction s as [|c s IH]; intros maxsplit; cbn; [done|].
  destruct maxsplit as [[|m]|]; [done|..].
  all: destruct (c =? sep); [done|].
  all: by destruct (str_split sep _ s).
Qed.

Lemma result_map_length {A B} (f : A -> result B) (l : list A) (bs : list B) :
  result_map f l = Ok bs -> length bs = length l.
Proof.
  revert bs. induction l as [|a l IH]; intros bs; cbn.
  - by intros [= <-].
  - destruct (f a); [|done]. destruct (result_map f l); [|done].
    intros [= <-]. cbn. by rewrite (IH _ eq_refl).
Qed.

(** Whatever follows the first hyphen of the release string is ignored. *)
Theorem get_linux_version_ignores_suffix (limit : nat) (s t : str) :
  0x2D ∉ s ->
  get_linux_version limit (s ++ 0x2D :: t) = get_linux_version limit s.
Proof.
  intros Hs. unfold get_linux_version.
  rewrite (str_split_at_sep 0x2D None s t Hs) by done.
  by rewrite (str_split_no_sep 0x2D None s Hs).
Qed.

Lemma get_linux_version_ignores_suffix_witness :
  get_linux_version 4300
    ([0x35; 0x2E; 0x34] ++ 0x2D :: [0x72; 0x63; 0x31])
  = get_linux_version 4300 [0x35; 0x2E; 0x34]
  /\ get_linux_version 4300 [0x35; 0x2E; 0x34] = Ok [5; 4]%Z.
Proof.
  split; [|reflexivity].
  apply (get_linux_version_ignores_suffix 4300 [0x35; 0x2E; 0x34]
           [0x72; 0x63; 0x31]).
  rewrite !not_elem_of_cons. repeat split; [lia..|]. apply not_elem_of_nil.
Defined.

(** A version that is returned has one to three components: missing
    components are not filled in, further ones are dropped. *)
Theorem get_linux_version_length (limit : nat) (release_str : str)
    (version : list Z) :
  get_linux_version limit release_str = Ok version ->
  (1 <= length version <= 3)%nat.
Proof.
  unfold get_linux_version.
  destruct (str_split 0x2D None release_str) as [|ver_str parts]; [done|].
  intros Hlen%result_map_length. rewrite Hlen, length_take.
  pose proof (str_split_nonempty 0x2E (Some 3%nat) ver_str) as Hne.
  destruct (str_split 0x2E (Some 3%nat) ver_str); [done|]. cbn [length]. lia.
Qed.

Lemma get_linux_version_length_witness :
  get_linux_version 4300 [0x36] = Ok [6%Z] /\
  (1 <= length [6%Z] <= 3)%nat.
Proof.
  split; [reflexivity|].
  apply (get_linux_version_length 4300 [0x36]). reflexivity.
Defined.

(** The first three components separated by dots are each read with
    [to_digit], from left to right; a fourth component and what follows it
    is dropped. *)
Theorem get_linux_version_components (limit : nat) (a b c : str)
    (more : option str) :
  0x2E ∉ a -> 0x2E ∉ b -> 0x2E ∉ c ->
  0x2D ∉ a -> 0x2D ∉ b -> 0x2D ∉ c ->
  match more with Some m => 0x2D ∉ m | None => True end ->
  get_linux_version limit
    (a ++ 0x2E :: b ++ 0x2E :: c
       ++ match more with Some m => 0x2E :: m | None => [] end)
  = result_map (to_digit limit) [a; b; c].
Proof.
  intros Ha Hb Hc Ha' Hb' Hc' Hmore. unfold get_linux_version.
  rewrite str_split_no_sep.
  2: { rewrite !not_elem_of_app, !not_elem_of_cons, !not_elem_of_app,
         !not_elem_of_cons, !not_elem_of_app.
       destruct more as [m|];
         rewrite ?not_elem_of_cons; repeat split; try done; try lia.
       apply not_elem_of_nil. }
  rewrite (str_split_at_sep 0x2E (Some 3%nat) a _ Ha) by done.
  cbn [fmap option_fmap option_map pred].
  rewrite (str_split_at_sep 0x2E (Some 2%nat) b _ Hb) by done.
  cbn [fmap option_fmap option_map pred].
  destruct more as [m|].
  - rewrite (str_split_at_sep 0x2E (Some 1%nat) c _ Hc) by done.
    cbn [fmap option_fmap option_map pred]. by destruct m.
  - rewrite app_nil_r. by rewrite (str_split_no_sep 0x2E _ c Hc).
Qed.

Lemma get_linux_version_components_witness :
  get_linux_version 4300
    ([0x36] ++ 0x2E :: [0x31] ++ 0x2E :: [0x30; 0x2B] ++ 0x2E :: [0x37])
  = result_map (to_digit 4300) [[0x36]; [0x31]; [0x30; 0x2B]]
  /\ result_map (to_digit 4300) [[0x36]; [0x31]; [0x30; 0x2B]]
     = Ok [6; 1; 0]%Z.
Proof.
  split; [|reflexivity].
  apply (get_linux_version_components 4300 [0x36] [0x31] [0x30; 0x2B]
           (Some [0x37])).
  all: rewrite ?not_elem_of_cons; repeat split; try lia.
  all: apply not_elem_of_nil.
Defined.

(** ** More on [as_bytes] *)

Lemma utf8_char_None (c : N) : utf8_char c = None <-> is_surrogate c.
Proof.
  unfold utf8_char, is_surrogate.
  destruct (N.ltb_spec c 0x80); [split; [done | lia]|].
  destruct (N.ltb_spec c 0x800); [split; [done | lia]|].
  destruct (N.ltb_spec c 0x10000); [|split; [done | lia]].
  destruct (N.leb_spec 0xD800 c), (N.leb_spec c 0xDFFF); cbn;
    split; (done || lia).
Qed.

(** A [str] is encoded unless it holds a surrogate code point: [as_bytes]
    raises [UnicodeEncodeError] exactly for the strings with a surrogate. *)
Theorem as_bytes_raises_on_surrogates_only (s : str) :
  as_bytes (PyStr s) = Raise (Exn UnicodeEncodeError None)
  <-> Exists is_surrogate s.
Proof.
  cbn. induction s as [|c s IH]; cbn.
  - split; [done | by intros ?%Exists_nil].
  - rewrite Exists_cons. destruct (utf8_char c) as [bs|] eqn:Hc.
    + assert (Hns : ~ is_surrogate c).
      { intros Hs%utf8_char_None. by rewrite Hs in Hc. }
      destruct (str_encode_utf8 s) as [rest|x]; [|by intuition].
      split; [done|]. intros [? | Hs]; [done|]. by apply IH in Hs.
    + apply utf8_char_None in Hc. by intuition.
Qed.

(** The other strings are encoded to one to four bytes per character. *)
Theorem as_bytes_length (s : str) :
  Forall (fun c => ~ is_surrogate c) s ->
  exists b,
    as_bytes (PyStr s) = Ok (PyBytes b) /\
    (length s <= length b <= 4 * length s)%nat.
Proof.
  cbn. induction 1 as [|c s Hc _ IH]; cbn.
  - exists []. split; [done | cbn; lia].
  - destruct IH as (b & Hb & Hlen).
    destruct (str_encode_utf8 s) as [rest|]; [|done].
    injection Hb as <-.
    destruct (utf8_char c) as [bs|] eqn:Hbs;
      [|by apply utf8_char_None in Hbs].
    exists (bs ++ rest). split; [done|]. rewrite length_app.
    assert (Hbsl : (1 <= length bs <= 4)%nat).
    { unfold utf8_char in Hbs.
      repeat match type of Hbs with
             | (if ?t then _ else _) = _ => destruct t
             end; try done; injection Hbs as <-; cbn; lia. }
    cbn [length]. lia.
Qed.

Lemma as_bytes_length_witness :
  let s := [0x41; 0xE9; 0x20AC; 0x1F600] in
  exists b,
    as_bytes (PyStr s) = Ok (PyBytes b) /\
    (length s <= length b <= 4 * length s)%nat.
Proof.
  intros s. apply (as_bytes_length s).
  repeat constructor; unfold is_surrogate; lia.
Defined.

(** A string of ASCII characters is encoded to the same numbers, one byte
    each. *)
Theorem as_bytes_ascii (s : str) :
  Forall (fun c => c < 0x80) s ->
  as_bytes (PyStr s) = Ok (PyBytes (map byte_of s)).
Proof.
  cbn. induction 1 as [|c s Hc _ IH]; cbn; [done|].
  unfold utf8_char. apply N.ltb_lt in Hc. rewrite Hc.
  destruct (str_encode_utf8 s) as [rest|]; [|done].
  by injection IH as ->.
Qed.

Lemma as_bytes_ascii_witness :
  as_bytes (PyStr [0x68; 0x69]) = Ok (PyBytes (map byte_of [0x68; 0x69])).
Proof.
  apply (as_bytes_ascii [0x68; 0x69]). repeat constructor; lia.
Defined.

(** Above the limit on the number of digits (CPython admits a limit of 640
    or more, or none), [to_digit] raises [ValueError] on a string of decimal
    digits. *)
Theorem to_digit_exceeds_limit (limit : nat) (s : str) :
  Forall (fun c => is_decimal c = true) s ->
  (640 <= limit < length s)%nat ->
  to_digit limit s = Raise exceeds_limit.
Proof.
  intros Hdec Hlim. unfold to_digit.
  assert (Hdig : str_isdigit s = true).
  { destruct s as [|c s]; [cbn in Hlim; lia|]. unfold str_isdigit.
    apply forallb_forall. intros x Hx%list_elem_of_In.
    rewrite Forall_forall in Hdec. by apply decimal_is_digit, Hdec. }
  rewrite Hdig.
  assert (Ha : Forall (fun c => is_ascii_digit c = true) (map int_to_ascii s)).
  { apply Forall_map. eapply Forall_impl; [exact Hdec|].
    intros c. apply decimal_to_ascii. }
  unfold py_int. destruct s as [|c s]; [cbn in Hlim; lia|]. cbn [map] in *.
  pose proof (ascii_digit_bounds _ (Forall_inv Ha)) as Hb.
  set (c' := int_to_ascii c) in *. cbn [skip_space]. unfold c_isspace.
  assert ((c' =? 0x20) = false) as -> by (apply N.eqb_neq; lia).
  assert ((c' <=? 0x0D) = false) as -> by (apply N.leb_gt; lia).
  rewrite andb_false_r. cbn [orb split_sign].
  assert ((c' =? 0x2B) = false) as -> by (apply N.eqb_neq; lia).
  assert ((c' =? 0x2D) = false) as -> by (apply N.eqb_neq; lia).
  cbn [starts_with_underscore].
  assert ((c' =? 0x5F) = false) as -> by (apply N.eqb_neq; lia).
  rewrite (scan_digits_value (c' :: map int_to_ascii s) 0 0 Ha).
  cbn [length Nat.add Nat.eqb]. rewrite length_map.
  cbn [length] in Hlim.
  assert (Nat.eqb limit 0 = false) as -> by (apply Nat.eqb_neq; lia).
  by assert (Nat.ltb limit (S (length s)) = true) as ->
    by (apply Nat.ltb_lt; lia).
Qed.

Lemma to_digit_exceeds_limit_witness :
  to_digit 640 (replicate 641 0x31) = Raise exceeds_limit.
Proof.
  apply (to_digit_exceeds_limit 640 (replicate 641 0x31)).
  - apply Forall_replicate. reflexivity.
  - rewrite length_replicate. lia.
Defined.

Lemma to_digit_without_leading_decimal_witness :
  to_digit 0 [0x72; 0x63; 0x31] = Ok 0%Z.
Proof.
  apply (to_digit_without_leading_decimal 0 [0x72; 0x63; 0x31]);
    reflexivity.
Defined.

Lemma to_digit_on_decimal_digits_witness :
  exists n, to_digit 0 [0x31; 0x39; 0x2E; 0x78] = Ok n /\ (0 <= n)%Z.
Proof.
  apply (to_digit_on_decimal_digits 0 [0x31; 0x39; 0x2E; 0x78]).
  - repeat constructor; discriminate.
  - left. reflexivity.
Defined.

Local Close Scope N_scope.

(** ** More on [nonblocking_socketpair] *)

(** With no failure from the socket layer the call returns: ten calls are
    issued, the client connects to the address that the listener reports
    (the loopback host and the port it was assigned), and the pair that is
    returned is the accepted socket and the client, open, connected to each
    other, with the listener closed. *)
Theorem handshake_succeeds (P : platform) (family : Z) (w : world) :
  family = AF_INET P \/ family = AF_INET6 P ->
  outcomes (replicate 10 None) (w_script w) ->
  let run := nonblocking_socketpair P family (SOCK_STREAM P) 0 w in
  let host := if family =? AF_INET P then _LOCALHOST else _LOCALHOST_V6 in
  let lsock := length (w_socks w) in
  let csock := S (length (w_socks w)) in
  let ssock := S (S (length (w_socks w))) in
  run.1 = Ok (ssock, csock) /\
  issued w run.2
    [Ev (SysSocket family (SOCK_STREAM P) 0) None;
     Ev (SysBind lsock (host, 0)) None;
     Ev (SysListen lsock (Z.min (SOMAXCONN P) 128)) None;
     Ev (SysGetsockname lsock) None;
     Ev (SysSocket family (SOCK_STREAM P) 0) None;
     Ev (SysConnect csock (host, w_port w)) None;
     Ev (SysAccept lsock) None;
     Ev (SysClose lsock) None;
     Ev (SysSetblocking csock false) None;
     Ev (SysSetblocking ssock false) None] /\
  s_peer <$> w_socks run.2 !! ssock = Some (Some csock) /\
  s_peer <$> w_socks run.2 !! csock = Some (Some ssock) /\
  is_open run.2 ssock = Some true /\
  is_open run.2 csock = Some true /\
  is_open run.2 lsock = Some false.
Proof.
  intros Hfam Hout.
  start_run Hfam host w socks tr sc port pend.
  cbn [outcomes w_script replicate] in Hout. destruct_and!.
  repeat run_known.
  cbn; frame; cbn. intros [= <- <-]. cbn; frame; cbn. done.
Qed.

Lemma handshake_succeeds_witness :
  let w := fresh_world [] in
  let run := nonblocking_socketpair linux 2 1 0 w in
  run.1 = Ok (2%nat, 1%nat) /\
  issued w run.2
    [Ev (SysSocket 2 1 0) None;
     Ev (SysBind 0 ("127.0.0.1"%string, 0)) None;
     Ev (SysListen 0 128) None;
     Ev (SysGetsockname 0) None;
     Ev (SysSocket 2 1 0) None;
     Ev (SysConnect 1 ("127.0.0.1"%string, 49152)) None;
     Ev (SysAccept 0) None;
     Ev (SysClose 0) None;
     Ev (SysSetblocking 1 false) None;
     Ev (SysSetblocking 2 false) None] /\
  s_peer <$> w_socks run.2 !! 2%nat = Some (Some 1%nat) /\
  s_peer <$> w_socks run.2 !! 1%nat = Some (Some 2%nat) /\
  is_open run.2 2 = Some true /\
  is_open run.2 1 = Some true /\
  is_open run.2 0 = Some false.
Proof.
  intros w run.
  apply (handshake_succeeds linux 2 w).
  - left. reflexivity.
  - vm_compute. tauto.
Defined.

(** A failure after the handshake, of the listener's [close()] or of one of
    the two [setblocking] calls ([k] calls returned before it), reaches the
    caller as it is, and the two connected sockets are left open: the
    function closes neither of them. *)
Theorem late_failure_leaves_pair_open
    (P : platform) (family : Z) (w : world) (k : nat) (e : exc) :
  family = AF_INET P \/ family = AF_INET6 P ->
  (7 <= k <= 9)%nat ->
  outcomes (replicate k None ++ [Some e]) (w_script w) ->
  let run := nonblocking_socketpair P family (SOCK_STREAM P) 0 w in
  let lsock := length (w_socks w) in
  let csock := S (length (w_socks w)) in
  let ssock := S (S (length (w_socks w))) in
  run.1 = Raise (Exn e None) /\
  is_open run.2 csock = Some true /\
  is_open run.2 ssock = Some true /\
  is_open run.2 lsock = Some false.
Proof.
  intros Hfam Hk Hout.
  start_run Hfam host w socks tr sc port pend.
  assert (Hcases : (k = 7 \/ k = 8 \/ k = 9)%nat) by lia.
  clear Hk Hfam. destruct_or!; subst k.
  all: cbn [outcomes w_script replicate app] in Hout; destruct_and!.
  all: repeat run_known.
  all: cbn; frame; cbn; intros [= <- <-]; cbn; frame; cbn; done.
Qed.

Lemma late_failure_leaves_pair_open_witness :
  let w := fresh_world
             [None; None; None; None; None; None; None; Some (OSError EIO)] in
  let run := nonblocking_socketpair linux 2 1 0 w in
  run.1 = Raise (Exn (OSError EIO) None) /\
  is_open run.2 1 = Some true /\
  is_open run.2 2 = Some true /\
  is_open run.2 0 = Some false.
Proof.
  intros w run.
  apply (late_failure_leaves_pair_open linux 2 w 7 (OSError EIO)).
  - left. reflexivity.
  - lia.
  - vm_compute. tauto.
Defined.

(** An exception that is no [Exception] (a [KeyboardInterrupt]) out of
    connect or accept passes the [except] clause: the listener is closed by
    the [finally] clause, the client-side socket stays open. *)
Theorem interrupt_leaves_client_open
    (P : platform) (family : Z) (w : world) (k : nat) (e : exc)
    (fl : option exc) :
  family = AF_INET P \/ family = AF_INET6 P ->
  is_Exception e = false ->
  (5 <= k <= 6)%nat ->
  outcomes (replicate k None ++ [Some e; fl]) (w_script w) ->
  let run := nonblocking_socketpair P family (SOCK_STREAM P) 0 w in
  let lsock := length (w_socks w) in
  let csock := S (length (w_socks w)) in
  run.1 = Raise (after_close fl (Exn e None)) /\
  is_open run.2 csock = Some true /\
  is_open run.2 lsock = Some false.
Proof.
  intros Hfam He Hk Hout.
  start_run Hfam host w socks tr sc port pend.
  assert (Hcases : (k = 5 \/ k = 6)%nat) by lia.
  clear Hk Hfam. destruct_or!; subst k.
  all: cbn [outcomes w_script replicate app] in Hout; destruct_and!.
  all: destruct fl.
  all: repeat run_known.
  all: cbn; frame; cbn; intros [= <- <-]; cbn; frame; cbn; done.
Qed.

Lemma interrupt_leaves_client_open_witness :
  let w := fresh_world
             [None; None; None; None; None; Some KeyboardInterrupt] in
  let run := nonblocking_socketpair linux 2 1 0 w in
  run.1 = Raise (Exn KeyboardInterrupt None) /\
  is_open run.2 1 = Some true /\
  is_open run.2 0 = Some false.
Proof.
  intros w run.
  apply (interrupt_leaves_client_open linux 2 w 5 KeyboardInterrupt None).
  - left. reflexivity.
  - reflexivity.
  - lia.
  - vm_compute. tauto.
Defined.

(** Whatever the arguments and whatever fails, the sockets that existed
    before the call are left as they were, and the call creates at most
    three sockets. *)
Theorem existing_sockets_untouched
    (P : platform) (family socket_type proto : Z) (w : world) :
  let run := nonblocking_socketpair P family socket_type proto w in
  take (length (w_socks w)) (w_socks run.2) = w_socks w /\
  (length (w_socks w) <= length (w_socks run.2) <= length (w_socks w) + 3)%nat.
Proof.
  cbv zeta.
  destruct (nonblocking_socketpair P family socket_type proto w)
    as [res w'] eqn:Hrun.
  revert Hrun. unfold nonblocking_socketpair.
  assert (Hnone : forall x : exn,
    (@Raise (nat * nat) x, w) = (res, w') ->
    take (length (w_socks w)) (w_socks (res, w').2) = w_socks w /\
    (length (w_socks w) <= length (w_socks (res, w').2)
     <= length (w_socks w) + 3)%nat).
  { intros x [= <- <-]. cbn. rewrite take_ge by lia. split; [done | lia]. }
  unfold bind at 1.
  destruct (family =? AF_INET P); [|destruct (family =? AF_INET6 P)].
  3: apply Hnone.
  all: cbn [ret raise]; unfold bind at 1;
    (destruct (socket_type =? SOCK_STREAM P); [|apply Hnone]);
    cbn [negb ret]; unfold bind at 1;
    (destruct (proto =? 0); [|apply Hnone]); cbn [negb ret]; clear Hnone.
  all: open_world w socks tr sc port pend; unfold_run; run_all.
  all: intros [= <- <-]; cbn [w_socks snd]; rewrite !Nat.add_0_r.
  all: rewrite take_app_length, length_app, app_nil_r; cbn [length].
  all: split; [done | lia].
Qed.

(** When a call of the handshake raises, up to accept ([k] calls returned
    before it; for connect and accept the error is an [Exception]), every
    socket that the call created is closed when the error reaches the
    caller, also when a [close()] of the cleanup itself raises. *)
Theorem failed_handshake_leaves_no_socket_open
    (P : platform) (family : Z) (w : world) (k : nat) (e : exc) :
  family = AF_INET P \/ family = AF_INET6 P ->
  (1 <= k <= 6)%nat ->
  ((5 <= k)%nat -> is_Exception e = true) ->
  outcomes (replicate k None ++ [Some e]) (w_script w) ->
  let run := nonblocking_socketpair P family (SOCK_STREAM P) 0 w in
  (exists x, run.1 = Raise x) /\
  Forall (fun s => s_open s = false)
         (drop (length (w_socks w)) (w_socks run.2)).
Proof.
  intros Hfam Hk He Hout.
  start_run Hfam host w socks tr sc port pend.
  assert (Hcases : (k = 1 \/ k = 2 \/ k = 3 \/ k = 4 \/ k = 5 \/ k = 6)%nat)
    by lia.
  clear Hk Hfam. destruct_or!; subst k.
  all: cbn [outcomes w_script replicate app] in Hout; destruct_and!.
  all: try (assert (He' : is_Exception e = true) by (apply He; lia)).
  all: clear He.
  all: repeat run_known.
  all: run_all.
  all: intros [= <- <-]; cbn [w_socks fst snd]; rewrite Nat.add_0_r.
  all: rewrite drop_app_length; split; [by eexists | by repeat constructor].
Qed.

Lemma failed_handshake_leaves_no_socket_open_witness :
  let w := fresh_world
             [None; None; None; None; None; None;
              Some (OSError EAGAIN); Some (OSError EIO)] in
  let run := nonblocking_socketpair linux 10 1 0 w in
  (exists x, run.1 = Raise x) /\
  Forall (fun s => s_open s = false) (drop 0 (w_socks run.2)).
Proof.
  intros w run.
  apply (failed_handshake_leaves_no_socket_open linux 10 w 6 (OSError EAGAIN)).
  - right. reflexivity.
  - lia.
  - reflexivity.
  - vm_compute. tauto.
Defined.

(** ** Examples *)

Example run_ipv4_returns_server_then_client :
  (nonblocking_socketpair linux 2 1 0 (fresh_world [])).1
  = Ok (2%nat, 1%nat).
Proof. vm_compute. reflexivity. Qed.

Example to_digit_plain : to_digit 4300 [0x31; 0x32]%N = Ok 12.
Proof. reflexivity. Qed.

Example to_digit_suffix : to_digit 4300 [0x35; 0x2D; 0x72; 0x63]%N = Ok 5.
Proof. reflexivity. Qed.

Example to_digit_backtracks : to_digit 4300 [0x31; 0x32; 0x0A]%N = Ok 1.
Proof. reflexivity. Qed.

Example to_digit_no_digit : to_digit 4300 [0x72; 0x63; 0x31]%N = Ok 0.
Proof. reflexivity. Qed.

Example as_bytes_encodes :
  as_bytes (PyStr [0xE9; 0x20AC; 0x1F600]%N)
  = Ok (PyBytes [xc3; xa9; xe2; x82; xac; xf0; x9f; x98; x80]).
Proof. reflexivity. Qed.

Example as_bytes_surrogate :
  as_bytes (PyStr [0xD800]%N) = Raise (Exn UnicodeEncodeError None).
Proof. reflexivity. Qed.
